(** * CommissionGuard ticket tracker: a shallow embedding of the React
      components and the properties of their handlers.

    The repository holds three near-identical variants of one component:
    - [Vercel]  : src/src/App.jsx (client-side sort, [window.confirm] delete);
    - [Canvas]  : the variant with the injected [__firebase_config] and the
                  [ConfirmationModal] two-step delete;
    - [Netlify] : the variant whose queries carry [orderBy('createdAt','desc')]
                  and whose snapshot handler does not sort.

    React state is modelled by a record per variant, the remote Firestore
    collection by a finite map from document ids to document data, the
    browser console by the list of [console.error] calls, and the outcome of
    every awaited provider call by an explicit argument (the promise settles
    fulfilled or rejected).  A handler runs atomically: the state it closes
    over is the state it is given. *)

From Stdlib Require Import ZArith NArith List String Ascii Lia Floats Uint63
  Permutation Sorted.
From stdpp Require Import base option list gmap fin_maps.

Local Open Scope Z_scope.

(** ** JavaScript strings: sequences of UTF-16 code units *)

Abbreviation jsstring := (list N).

Definition js (s : string) : jsstring :=
  map N_of_ascii (list_ascii_of_string s).

(** ECMAScript WhiteSpace and LineTerminator code points, the set stripped by
    [String.prototype.trim]; all of them lie in the basic plane, so the test
    is on single code units. *)
Definition isTrimmable (c : N) : bool :=
  ((c =? 0x09) || (c =? 0x0A) || (c =? 0x0B) || (c =? 0x0C) || (c =? 0x0D) ||
   (c =? 0x20) || (c =? 0xA0) || (c =? 0x1680) ||
   ((0x2000 <=? c) && (c <=? 0x200A)) ||
   (c =? 0x2028) || (c =? 0x2029) || (c =? 0x202F) || (c =? 0x205F) ||
   (c =? 0x3000) || (c =? 0xFEFF))%N.

Fixpoint trimStart (s : jsstring) : jsstring :=
  match s with
  | [] => []
  | c :: s' => if isTrimmable c then trimStart s' else s
  end.

Definition trimEnd (s : jsstring) : jsstring :=
  reverse (trimStart (reverse s)).

Definition trim (s : jsstring) : jsstring := trimEnd (trimStart s).

(** [!s] on a string: only the empty string is falsy. *)
Definition str_falsy (s : jsstring) : bool :=
  match s with [] => true | _ => false end.

(** ** Data model *)

Abbreviation DocId := (list N) (only parsing).

(** A Firestore [Timestamp]; the class is the provider's, and the component
    only calls [toMillis()] on it.  The result is a finite number of which
    the snapshot handler uses the order and whether it is zero; an integer
    stands for it. *)
Record Timestamp := { toMillis : Z }.

#[global] Instance Timestamp_eq_dec : EqDecision Timestamp.
Proof. solve_decision. Defined.

(** The data of a stored document.  [createdAt] is [None] while the server
    timestamp is not resolved (or the field is missing). *)
Module Doc.
Record t := mk {
  title : jsstring;
  description : jsstring;
  status : jsstring;
  userId : jsstring;
  createdAt : option Timestamp
}.
End Doc.

#[global] Instance Doc_eq_dec : EqDecision Doc.t.
Proof. solve_decision. Defined.

(** A ticket as held in React state: [{ id: doc.id, ...doc.data() }]. *)
Module Ticket.
Record t := mk {
  id : DocId;
  title : jsstring;
  description : jsstring;
  status : jsstring;
  userId : jsstring;
  createdAt : option Timestamp
}.
End Ticket.

#[global] Instance Ticket_eq_dec : EqDecision Ticket.t.
Proof. solve_decision. Defined.

Definition ticket_of_doc (d : DocId * Doc.t) : Ticket.t :=
  Ticket.mk d.1 (Doc.title d.2) (Doc.description d.2) (Doc.status d.2)
            (Doc.userId d.2) (Doc.createdAt d.2).

Record User := { uid : jsstring }.

#[global] Instance User_eq_dec : EqDecision User.
Proof. solve_decision. Defined.

Inductive View := MyTickets | AllTickets | Stats.

#[global] Instance View_eq_dec : EqDecision View.
Proof. solve_decision. Defined.

(** [!user]: [null] is falsy, a user object is not. *)
Definition user_falsy (u : option User) : bool :=
  match u with None => true | Some _ => false end.

(** ** The provider boundary *)

(** How an awaited promise settles. *)
Inductive Settled (A : Type) :=
  | Fulfilled (a : A)
  | Rejected (err : jsstring).
Arguments Fulfilled {A} a.
Arguments Rejected {A} err.

(** The [createdAt] value of a write: the [serverTimestamp()] sentinel is
    replaced by the server's clock when the write is committed. *)
Inductive TimestampField := serverTimestamp.

(** The object handed to [addDoc]. *)
Module Payload.
Record t := mk {
  title : jsstring;
  description : jsstring;
  status : jsstring;
  userId : jsstring;
  createdAt : TimestampField
}.
End Payload.

(** The object handed to [updateDoc] by the status control: [{ status }]. *)
Record Patch := { patch_status : jsstring }.

Inductive Request :=
  | AddDocReq (p : Payload.t)
  | UpdateDocReq (id : DocId) (data : Patch)
  | DeleteDocReq (id : DocId).

(** One [console.error(message, error)] call. *)
Record LogEntry := { message : string; error : jsstring }.

(** Everything outside the component: the remote collection, the calls sent
    to the provider (oldest first) and the console (oldest first). *)
Record World := {
  collection : gmap (list N) Doc.t;
  requests : list Request;
  console : list LogEntry
}.

Definition console_error (msg : string) (err : jsstring) (w : World) : World :=
  {| collection := collection w;
     requests := requests w;
     console := console w ++ [ {| message := msg; error := err |} ] |}.

Definition commit (p : Payload.t) (now : Timestamp) : Doc.t :=
  Doc.mk (Payload.title p) (Payload.description p) (Payload.status p)
         (Payload.userId p)
         (match Payload.createdAt p with serverTimestamp => Some now end).

(** [await addDoc(collection(db, path), payload)]: when the provider fulfils
    the write it has chosen the document id and the commit time. *)
Definition addDoc (p : Payload.t) (r : Settled (DocId * Timestamp)) (w : World)
  : Settled DocId * World :=
  let reqs := requests w ++ [AddDocReq p] in
  match r with
  | Fulfilled (newId, now) =>
      (Fulfilled newId,
       {| collection := <[newId := commit p now]> (collection w);
          requests := reqs; console := console w |})
  | Rejected err =>
      (Rejected err,
       {| collection := collection w; requests := reqs; console := console w |})
  end.

Definition apply_patch (data : Patch) (d : Doc.t) : Doc.t :=
  Doc.mk (Doc.title d) (Doc.description d) (patch_status data)
         (Doc.userId d) (Doc.createdAt d).

(** [await updateDoc(doc(db, path/id), data)]. *)
Definition updateDoc (docId : DocId) (data : Patch) (r : Settled unit) (w : World)
  : Settled unit * World :=
  let reqs := requests w ++ [UpdateDocReq docId data] in
  match r with
  | Fulfilled _ =>
      (Fulfilled tt,
       {| collection := alter (apply_patch data) docId (collection w);
          requests := reqs; console := console w |})
  | Rejected err =>
      (Rejected err,
       {| collection := collection w; requests := reqs; console := console w |})
  end.

(** [await deleteDoc(doc(db, path/id))]. *)
Definition deleteDoc (docId : DocId) (r : Settled unit) (w : World)
  : Settled unit * World :=
  let reqs := requests w ++ [DeleteDocReq docId] in
  match r with
  | Fulfilled _ =>
      (Fulfilled tt,
       {| collection := delete docId (collection w);
          requests := reqs; console := console w |})
  | Rejected err =>
      (Rejected err,
       {| collection := collection w; requests := reqs; console := console w |})
  end.

(** The two queries of the data listener. *)
Inductive Query :=
  | WhereUserId (u : jsstring)
  | WholeCollection.

Definition matches (q : Query) (d : Doc.t) : bool :=
  match q with
  | WhereUserId u => bool_decide (Doc.userId d = u)
  | WholeCollection => true
  end.

Definition query_result (q : Query) (c : gmap (list N) Doc.t) : gmap (list N) Doc.t :=
  filter (λ kv, matches q kv.2 = true) c.

(** [snapshot.docs] for a query: the matching documents, in an order that is
    the provider's. *)
Definition snapshot_of (q : Query) (c : gmap (list N) Doc.t)
    (docs : list (DocId * Doc.t)) : Prop :=
  docs ≡ₚ map_to_list (query_result q c).

(** The submit event of the form. *)
Record FormEvent := { defaultPrevented : bool }.

Definition preventDefault (e : FormEvent) : FormEvent :=
  {| defaultPrevented := true |}.

(** ** [Array.prototype.sort] with a comparator

    The language fixes the sort as stable; for a consistent comparator the
    outcome is then the only stable arrangement of the input (lemma
    [stable_sorted_unique] below), whatever algorithm the engine runs.  It
    is computed here by insertion from the right: an element moves past
    exactly those elements it compares strictly greater than. *)
Section JsSort.
Context {A : Type} (comparefn : A → A → Z).

Fixpoint sort_insert (x : A) (l : list A) : list A :=
  match l with
  | [] => [x]
  | y :: l' => if 0 <? comparefn x y then y :: sort_insert x l' else x :: l
  end.

Definition js_sort (l : list A) : list A := foldr sort_insert [] l.
End JsSort.

(** [createdAt?.toMillis() || 0] *)
Definition millis_or_0 (c : option Timestamp) : Z :=
  match c with
  | Some ts => if toMillis ts =? 0 then 0 else toMillis ts
  | None => 0
  end.

(** The comparator of the snapshot handler. *)
Definition byCreatedAtDesc (a b : Ticket.t) : Z :=
  let timeA := millis_or_0 (Ticket.createdAt a) in
  let timeB := millis_or_0 (Ticket.createdAt b) in
  timeB - timeA.

Definition sortKey (t : Ticket.t) : Z := millis_or_0 (Ticket.createdAt t).

(** The query built by the data listener (all three variants filter the
    same way; only 'My Tickets' is owner-scoped). *)
Definition ticketsQuery (view : View) (user : User) : Query :=
  match view with
  | MyTickets => WhereUserId (uid user)
  | _ => WholeCollection
  end.

(** [user?.uid === ticket.userId] in [TicketCard]; [undefined] on the left
    when there is no user, and a stored [userId] is always a string. *)
Definition isOwner (user : option User) (ticket : Ticket.t) : bool :=
  match user with
  | Some u => bool_decide (uid u = Ticket.userId ticket)
  | None => false
  end.

(** What a [TicketCard] offers: the status control is always rendered, the
    delete button only under [isOwner &&]. *)
Record Card := {
  card_ticket : DocId;
  statusControl : bool;
  deleteButton : bool
}.

Definition TicketCard (ticket : Ticket.t) (user : option User) : Card :=
  {| card_ticket := Ticket.id ticket;
     statusControl := true;
     deleteButton := isOwner user ticket |}.

(** ** Numbers and [Number.prototype.toFixed(1)]

    JavaScript numbers are IEEE 754 binary64 values, which is what Rocq's
    primitive [float] is; [/] and [*] below are the hardware operations. *)

(** A count ([array.length], below 2^32) as a number. *)
Definition number_of_nat (n : nat) : float :=
  of_uint63 (Uint63.of_Z (Z.of_nat n)).

(** The values a statistics field can hold. *)
Inductive JsValue :=
  | JsNumber (x : float)
  | JsString (s : jsstring).

Fixpoint uint_codes (d : Decimal.uint) : jsstring :=
  match d with
  | Decimal.Nil => []
  | Decimal.D0 d' => 48%N :: uint_codes d'
  | Decimal.D1 d' => 49%N :: uint_codes d'
  | Decimal.D2 d' => 50%N :: uint_codes d'
  | Decimal.D3 d' => 51%N :: uint_codes d'
  | Decimal.D4 d' => 52%N :: uint_codes d'
  | Decimal.D5 d' => 53%N :: uint_codes d'
  | Decimal.D6 d' => 54%N :: uint_codes d'
  | Decimal.D7 d' => 55%N :: uint_codes d'
  | Decimal.D8 d' => 56%N :: uint_codes d'
  | Decimal.D9 d' => 57%N :: uint_codes d'
  end.

(** The decimal digits of a non-negative integer (["0"] for zero). *)
Definition digits_of (n : Z) : jsstring := uint_codes (N.to_uint (Z.to_N n)).

(** The last steps of [toFixed] for one fraction digit: the digits of [n],
    left-padded with zeros to two characters, with a point before the last. *)
Definition fixed1_digits (n : Z) : jsstring :=
  let m := digits_of n in
  let m := if (length m <=? 1)%nat then 48%N :: m else m in
  take (length m - 1) m ++ 46%N :: drop (length m - 1) m.

(** The integer [n] for which [n / 10 - m * 2^e] is closest to zero, the
    larger one when there are two: the floor of [10 * m * 2^e + 1/2]. *)
Definition nearest_tenths (m : positive) (e : Z) : Z :=
  if 0 <=? e then 10 * Z.pos m * 2 ^ e
  else (20 * Z.pos m + 2 ^ (- e)) / 2 ^ (1 - e).

(** [m * 2^e >= 10^21] *)
Definition at_least_1e21 (m : positive) (e : Z) : bool :=
  if 0 <=? e then 10 ^ 21 <=? Z.pos m * 2 ^ e
  else 10 ^ 21 * 2 ^ (- e) <=? Z.pos m.

Section ToFixed.
(** ECMAScript [Number::toString], which [toFixed] falls back to for
    values that are not finite or not below 10^21; it is the engine's. *)
Variable Number_toString : float → jsstring.

Definition toFixed1 (x : float) : jsstring :=
  match Prim2SF x with
  | S754_nan | S754_infinity _ => Number_toString x
  | S754_zero _ => fixed1_digits 0
  | S754_finite s m e =>
      if at_least_1e21 m e
      then (if s then 45%N :: Number_toString (- x)%float else Number_toString x)
      else (if s then [45%N] else []) ++ fixed1_digits (nearest_tenths m e)
  end.

(** [total > 0 ? ((count / total) * 100).toFixed(1) : 0] *)
Definition percent (count total : nat) : JsValue :=
  if (0 <? total)%nat
  then JsString (toFixed1 ((number_of_nat count / number_of_nat total) * 100)%float)
  else JsNumber 0%float.

Record Statistics := {
  total : nat;
  open : nat;
  inProgress : nat;
  resolved : nat;
  openPercent : JsValue;
  inProgressPercent : JsValue;
  resolvedPercent : JsValue
}.

Definition has_status (s : string) (t : Ticket.t) : bool :=
  bool_decide (Ticket.status t = js s).

(** The [stats] memo, a function of [tickets]. *)
Definition stats (tickets : list Ticket.t) : Statistics :=
  let total := length tickets in
  let open := length (List.filter (has_status "Open") tickets) in
  let inProgress := length (List.filter (has_status "In Progress") tickets) in
  let resolved := length (List.filter (has_status "Resolved") tickets) in
  {| total := total;
     open := open;
     inProgress := inProgress;
     resolved := resolved;
     openPercent := percent open total;
     inProgressPercent := percent inProgress total;
     resolvedPercent := percent resolved total |}.

(** The same computation with a division that traps on a zero divisor:
    [None] stands for the fault. *)
Definition trapping_div (count total : nat) : option float :=
  match total with
  | O => None
  | S _ => Some (number_of_nat count / number_of_nat total)%float
  end.

Definition percent_trap (count total : nat) : option JsValue :=
  if (0 <? total)%nat
  then q ← trapping_div count total; Some (JsString (toFixed1 (q * 100)%float))
  else Some (JsNumber 0%float).

Definition stats_trap (tickets : list Ticket.t) : option Statistics :=
  let total := length tickets in
  let open := length (List.filter (has_status "Open") tickets) in
  let inProgress := length (List.filter (has_status "In Progress") tickets) in
  let resolved := length (List.filter (has_status "Resolved") tickets) in
  op ← percent_trap open total;
  ip ← percent_trap inProgress total;
  rp ← percent_trap resolved total;
  Some {| total := total; open := open; inProgress := inProgress;
          resolved := resolved; openPercent := op;
          inProgressPercent := ip; resolvedPercent := rp |}.
End ToFixed.

(** ** src/src/App.jsx *)
Module Vercel.

Record AppState := {
  tickets : list Ticket.t;
  user : option User;
  title : jsstring;
  description : jsstring;
  loading : bool;
  view : View
}.

Definition setTickets (l : list Ticket.t) (st : AppState) : AppState :=
  {| tickets := l; user := user st; title := title st;
     description := description st; loading := loading st; view := view st |}.

Definition setTitle (s : jsstring) (st : AppState) : AppState :=
  {| tickets := tickets st; user := user st; title := s;
     description := description st; loading := loading st; view := view st |}.

Definition setDescription (s : jsstring) (st : AppState) : AppState :=
  {| tickets := tickets st; user := user st; title := title st;
     description := s; loading := loading st; view := view st |}.

Definition setView (v : View) (st : AppState) : AppState :=
  {| tickets := tickets st; user := user st; title := title st;
     description := description st; loading := loading st; view := v |}.

(** The success callback of [onSnapshot]: map the documents to tickets,
    sort them in place, store them. *)
Definition onSnapshot (docs : list (DocId * Doc.t)) (st : AppState) : AppState :=
  let fetchedTickets := map ticket_of_doc docs in
  let fetchedTickets := js_sort byCreatedAtDesc fetchedTickets in
  setTickets fetchedTickets st.

(** The error callback of [onSnapshot]. *)
Definition onSnapshotError (err : jsstring) (st : AppState) (w : World)
  : AppState * World :=
  (st, console_error "Error listening to tickets: " err w).

Definition createTicket (e : FormEvent) (r : Settled (DocId * Timestamp))
    (st : AppState) (w : World) : FormEvent * AppState * World :=
  let e := preventDefault e in
  if str_falsy (trim (title st)) || str_falsy (trim (description st))
     || user_falsy (user st)
  then (e, st, w)
  else
    match user st with
    | None => (e, st, w)
    | Some u =>
        match addDoc (Payload.mk (trim (title st)) (trim (description st))
                        (js "Open") (uid u) serverTimestamp) r w with
        | (Fulfilled _, w') => (e, setDescription [] (setTitle [] st), w')
        | (Rejected err, w') =>
            (e, st, console_error "Error creating document: " err w')
        end
    end.

Definition updateTicketStatus (id : DocId) (data : Patch) (r : Settled unit)
    (st : AppState) (w : World) : AppState * World :=
  match updateDoc id data r w with
  | (Fulfilled _, w') => (st, w')
  | (Rejected err, w') => (st, console_error "Error updating document: " err w')
  end.

(** [confirmed] is the answer of [window.confirm]. *)
Definition deleteTicket (id : DocId) (confirmed : bool) (r : Settled unit)
    (st : AppState) (w : World) : AppState * World :=
  if confirmed then
    match deleteDoc id r w with
    | (Fulfilled _, w') => (st, w')
    | (Rejected err, w') => (st, console_error "Error deleting document: " err w')
    end
  else (st, w).


(** The cards of the ticket view. *)
Definition renderTicketView (st : AppState) : list Card :=
  map (λ ticket, TicketCard ticket (user st)) (tickets st).

End Vercel.

(** ** The variant with the confirmation modal *)
Module Canvas.

Record AppState := {
  tickets : list Ticket.t;
  user : option User;
  title : jsstring;
  description : jsstring;
  loading : bool;
  view : View;
  (** [firebaseServices.db] is set, or still [null] *)
  db : bool;
  showConfirmModal : bool;
  ticketToDeleteId : option DocId
}.

Definition setTickets (l : list Ticket.t) (st : AppState) : AppState :=
  {| tickets := l; user := user st; title := title st;
     description := description st; loading := loading st; view := view st;
     db := db st; showConfirmModal := showConfirmModal st;
     ticketToDeleteId := ticketToDeleteId st |}.

Definition setTitle (s : jsstring) (st : AppState) : AppState :=
  {| tickets := tickets st; user := user st; title := s;
     description := description st; loading := loading st; view := view st;
     db := db st; showConfirmModal := showConfirmModal st;
     ticketToDeleteId := ticketToDeleteId st |}.

Definition setDescription (s : jsstring) (st : AppState) : AppState :=
  {| tickets := tickets st; user := user st; title := title st;
     description := s; loading := loading st; view := view st;
     db := db st; showConfirmModal := showConfirmModal st;
     ticketToDeleteId := ticketToDeleteId st |}.

Definition setShowConfirmModal (b : bool) (st : AppState) : AppState :=
  {| tickets := tickets st; user := user st; title := title st;
     description := description st; loading := loading st; view := view st;
     db := db st; showConfirmModal := b;
     ticketToDeleteId := ticketToDeleteId st |}.

Definition setTicketToDeleteId (i : option DocId) (st : AppState) : AppState :=
  {| tickets := tickets st; user := user st; title := title st;
     description := description st; loading := loading st; view := view st;
     db := db st; showConfirmModal := showConfirmModal st;
     ticketToDeleteId := i |}.

Definition onSnapshot (docs : list (DocId * Doc.t)) (st : AppState) : AppState :=
  let fetchedTickets := map ticket_of_doc docs in
  let fetchedTickets := js_sort byCreatedAtDesc fetchedTickets in
  setTickets fetchedTickets st.

Definition onSnapshotError (err : jsstring) (st : AppState) (w : World)
  : AppState * World :=
  (st, console_error "Error listening to tickets: " err w).

Definition createTicket (e : FormEvent) (r : Settled (DocId * Timestamp))
    (st : AppState) (w : World) : FormEvent * AppState * World :=
  let e := preventDefault e in
  if str_falsy (trim (title st)) || str_falsy (trim (description st))
     || user_falsy (user st) || negb (db st)
  then (e, st, w)
  else
    match user st with
    | None => (e, st, w)
    | Some u =>
        match addDoc (Payload.mk (trim (title st)) (trim (description st))
                        (js "Open") (uid u) serverTimestamp) r w with
        | (Fulfilled _, w') => (e, setDescription [] (setTitle [] st), w')
        | (Rejected err, w') =>
            (e, st, console_error "Error creating document: " err w')
        end
    end.

Definition updateTicketStatus (id : DocId) (data : Patch) (r : Settled unit)
    (st : AppState) (w : World) : AppState * World :=
  if negb (db st) then (st, w)
  else
    match updateDoc id data r w with
    | (Fulfilled _, w') => (st, w')
    | (Rejected err, w') => (st, console_error "Error updating document: " err w')
    end.

(** The handler behind the trash button: it shows the modal. *)
Definition handleDeleteConfirmation (ticketId : DocId) (st : AppState) : AppState :=
  setShowConfirmModal true (setTicketToDeleteId (Some ticketId) st).

(** [!ticketToDeleteId]: [null] and the empty string are falsy. *)
Definition id_falsy (i : option DocId) : bool :=
  match i with
  | None => true
  | Some s => str_falsy s
  end.

(** The delete proper, the modal's [onConfirm]. *)
Definition deleteTicket (r : Settled unit) (st : AppState) (w : World)
  : AppState * World :=
  if id_falsy (ticketToDeleteId st) || negb (db st) then (st, w)
  else
    match ticketToDeleteId st with
    | None => (st, w)
    | Some id =>
        let closed := setTicketToDeleteId None (setShowConfirmModal false st) in
        match deleteDoc id r w with
        | (Fulfilled _, w') => (closed, w')
        | (Rejected err, w') =>
            (closed, console_error "Error deleting document: " err w')
        end
    end.

(** The modal's [onCancel]. *)
Definition onCancel (st : AppState) : AppState := setShowConfirmModal false st.

(** What [ConfirmationModal] renders: nothing unless [isOpen]. *)
Record Modal := { cancelButton : bool; confirmButton : bool }.

Definition ConfirmationModal (isOpen : bool) : option Modal :=
  if negb isOpen then None
  else Some {| cancelButton := true; confirmButton := true |}.

Definition renderTicketView (st : AppState) : list Card :=
  map (λ ticket, TicketCard ticket (user st)) (tickets st).

(** The deletion flow as the spec names it. *)
Inductive DeletePhase :=
  | idle
  | pendingConfirmation (id : option DocId).

Definition phase (st : AppState) : DeletePhase :=
  match ConfirmationModal (showConfirmModal st) with
  | None => idle
  | Some _ => pendingConfirmation (ticketToDeleteId st)
  end.

(** User actions and provider pushes, and the component's reaction. *)
Inductive UIEvent :=
  | Submit (e : FormEvent) (r : Settled (DocId * Timestamp))
  | TypeTitle (s : jsstring)
  | TypeDescription (s : jsstring)
  | ChangeStatus (ticketId : DocId) (newStatus : jsstring) (r : Settled unit)
  | ClickDelete (ticketId : DocId)
  | ClickConfirm (r : Settled unit)
  | ClickCancel
  | Snapshot (docs : list (DocId * Doc.t))
  | SnapshotError (err : jsstring).

(** Whether the rendered page offers the control behind an event. *)
Definition offered (st : AppState) (ev : UIEvent) : bool :=
  match ev with
  | ChangeStatus ticketId _ _ =>
      existsb (λ c, bool_decide (card_ticket c = ticketId) && statusControl c)
              (renderTicketView st)
  | ClickDelete ticketId =>
      existsb (λ c, bool_decide (card_ticket c = ticketId) && deleteButton c)
              (renderTicketView st)
  | ClickConfirm _ =>
      match ConfirmationModal (showConfirmModal st) with
      | Some m => confirmButton m
      | None => false
      end
  | ClickCancel =>
      match ConfirmationModal (showConfirmModal st) with
      | Some m => cancelButton m
      | None => false
      end
  | _ => true
  end.

Definition step (ev : UIEvent) (s : AppState * World) : AppState * World :=
  let (st, w) := s in
  match ev with
  | Submit e r => let '(_, st', w') := createTicket e r st w in (st', w')
  | TypeTitle t => (setTitle t st, w)
  | TypeDescription t => (setDescription t st, w)
  | ChangeStatus ticketId newStatus r =>
      updateTicketStatus ticketId {| patch_status := newStatus |} r st w
  | ClickDelete ticketId => (handleDeleteConfirmation ticketId st, w)
  | ClickConfirm r => deleteTicket r st w
  | ClickCancel => (onCancel st, w)
  | Snapshot docs => (onSnapshot docs st, w)
  | SnapshotError err => onSnapshotError err st w
  end.

(** A run: each event is taken only if the page offers it. *)
Fixpoint run (evs : list UIEvent) (s : AppState * World) : AppState * World :=
  match evs with
  | [] => s
  | ev :: evs' => run evs' (if offered s.1 ev then step ev s else s)
  end.

Definition is_confirm (ev : UIEvent) : bool :=
  match ev with ClickConfirm _ => true | _ => false end.

Definition is_trigger (ev : UIEvent) : bool :=
  match ev with ClickDelete _ => true | _ => false end.

(** The fields this variant shares with src/src/App.jsx. *)
Definition shared (st : AppState) : Vercel.AppState :=
  {| Vercel.tickets := tickets st; Vercel.user := user st;
     Vercel.title := title st; Vercel.description := description st;
     Vercel.loading := loading st; Vercel.view := view st |}.

End Canvas.

(** ** The variant that orders in the query *)
Module Netlify.

Record AppState := {
  tickets : list Ticket.t;
  user : option User;
  title : jsstring;
  description : jsstring;
  loading : bool;
  view : View
}.

Definition setTickets (l : list Ticket.t) (st : AppState) : AppState :=
  {| tickets := l; user := user st; title := title st;
     description := description st; loading := loading st; view := view st |}.

(** The query carries [orderBy('createdAt', 'desc')]. *)
Record OrderedQuery := { scope : Query; orderBy : string * string }.

Definition ticketsQuery (view : View) (user : User) : OrderedQuery :=
  {| scope := ticketsQuery view user; orderBy := ("createdAt", "desc")%string |}.

(** The success callback of [onSnapshot]: the documents are stored in the
    order the snapshot has them.  (The other handlers of this variant are
    the same as in src/src/App.jsx.) *)
Definition onSnapshot (docs : list (DocId * Doc.t)) (st : AppState) : AppState :=
  let fetchedTickets := map ticket_of_doc docs in
  setTickets fetchedTickets st.

End Netlify.

(** ** What the claims speak about *)

(** One more [console.error] call, and nothing else, on the console. *)
Definition logged_once (before after : World) : Prop :=
  ∃ entry, console after = console before ++ [entry].

(** One more call to the provider. *)
Definition requested_once (before after : World) : Prop :=
  ∃ req, requests after = requests before ++ [req].

Definition whitespace_only (s : jsstring) : Prop :=
  Forall (λ c, isTrimmable c = true) s.

(** No code unit stripped by [trim] at either end. *)
Definition trimmed (s : jsstring) : Prop :=
  (∀ c, head s = Some c → isTrimmable c = false) ∧
  (∀ c, last s = Some c → isTrimmable c = false).

(** [shown] is [input] stable-sorted by creation time, newest first:
    the same tickets, keys non-increasing, tickets of equal key in their
    input order; tickets without a timestamp have key 0 and nothing with a
    positive timestamp comes after them. *)
Definition displayed_order (input shown : list Ticket.t) : Prop :=
  shown ≡ₚ input ∧
  StronglySorted (λ a b, sortKey b ≤ sortKey a) shown ∧
  (∀ k, filter (λ t, sortKey t = k) shown = filter (λ t, sortKey t = k) input) ∧
  (∀ t, t ∈ shown → Ticket.createdAt t = None → sortKey t = 0) ∧
  (∀ i j t u, shown !! i = Some t → shown !! j = Some u →
     Ticket.createdAt t = None → 0 < sortKey u → (j < i)%nat).

(** The number of tickets whose status is exactly [s]. *)
Fixpoint count_status (s : jsstring) (l : list Ticket.t) : nat :=
  match l with
  | [] => 0
  | t :: l' => (if decide (Ticket.status t = s) then 1 else 0) + count_status s l'
  end.

Definition known_status (t : Ticket.t) : Prop :=
  Ticket.status t = js "Open" ∨ Ticket.status t = js "In Progress"
  ∨ Ticket.status t = js "Resolved".

(** Reading a decimal with one fraction digit back: ["28.7"] is 287 tenths. *)
Definition digit_value (c : N) : option Z :=
  if ((48 <=? c) && (c <=? 57))%N then Some (Z.of_N c - 48) else None.

Fixpoint digits_value (acc : Z) (s : jsstring) : option Z :=
  match s with
  | [] => Some acc
  | c :: s' => d ← digit_value c; digits_value (10 * acc + d) s'
  end.

Definition decimal_tenths (s : jsstring) : option Z :=
  match reverse s with
  | f :: dot :: (_ :: _) as ip =>
      if (dot =? 46)%N
      then d ← digit_value f; i ← digits_value 0 (reverse ip); Some (10 * i + d)
      else None
  | _ => None
  end.

(** [v] is the string of a decimal with one fraction digit, [n / 10], and
    no multiple of 0.1 is nearer to [100 * count / total]:
    [|n / 10 - 100 * count / total| <= 0.05]. *)
Definition nearest_tenth_of_share (v : JsValue) (count total : nat) : Prop :=
  ∃ (s : jsstring) (n : Z),
    v = JsString s ∧ s = fixed1_digits n ∧ decimal_tenths s = Some n ∧
    0 ≤ n ≤ 1000 ∧
    2 * Z.abs (n * Z.of_nat total - 1000 * Z.of_nat count) ≤ Z.of_nat total.

(** [100 * count / total] rounded to one decimal in exact arithmetic, in
    tenths, ties upwards and ties to even. *)
Definition half_up_tenths (count total : nat) : Z :=
  (2000 * Z.of_nat count + Z.of_nat total) / (2 * Z.of_nat total).

Definition half_even_tenths (count total : nat) : Z :=
  let q := 1000 * Z.of_nat count / Z.of_nat total in
  let r := (1000 * Z.of_nat count) mod Z.of_nat total in
  if 2 * r <? Z.of_nat total then q
  else if Z.of_nat total <? 2 * r then q + 1
  else if Z.even q then q else q + 1.

(** ** Sample data *)

Definition ticket_with_status (s : string) : Ticket.t :=
  Ticket.mk [] (js "t") (js "d") (js s) (js "alice") None.

(** One ticket of each status. *)
Definition three_tickets : list Ticket.t :=
  [ticket_with_status "Open"; ticket_with_status "In Progress";
   ticket_with_status "Resolved"].

(** Eighty tickets, 23 of them open. *)
Definition eighty_tickets : list Ticket.t :=
  repeat (ticket_with_status "Open") 23 ++ repeat (ticket_with_status "Resolved") 57.

(** A stand-in for the engine's [Number::toString] where one is needed to
    evaluate; the percentages never reach it. *)
Definition no_toString : float → jsstring := λ _, [].


Definition alice : User := {| uid := js "alice" |}.
Definition bob : User := {| uid := js "bob" |}.

Definition empty_world : World :=
  {| collection := ∅; requests := []; console := [] |}.

Definition submit_event : FormEvent := {| defaultPrevented := false |}.

(** The form of the spec's example, typed with surrounding blanks. *)
Definition refund_form : Vercel.AppState :=
  {| Vercel.tickets := []; Vercel.user := Some alice;
     Vercel.title := js "  Refund for order #457 ";
     Vercel.description := js "Double-charged";
     Vercel.loading := false; Vercel.view := MyTickets |}.

(** A form whose title holds blanks only. *)
Definition blank_form : Vercel.AppState :=
  {| Vercel.tickets := []; Vercel.user := Some alice;
     Vercel.title := js "   ";
     Vercel.description := js "Double-charged";
     Vercel.loading := false; Vercel.view := MyTickets |}.

(** A write still waiting for its server timestamp, and an older ticket. *)
Definition pending_doc : DocId * Doc.t :=
  (js "t2", Doc.mk (js "Late payout") (js "March") (js "Open") (js "alice") None).

Definition older_doc : DocId * Doc.t :=
  (js "t1", Doc.mk (js "Refund") (js "Double-charged") (js "Resolved")
                   (js "bob") (Some {| toMillis := 1700000000000 |})).

Definition newer_doc : DocId * Doc.t :=
  (js "t3", Doc.mk (js "Bonus") (js "Q4") (js "In Progress") (js "alice")
                   (Some {| toMillis := 1700000000500 |})).

Definition netlify_start : Netlify.AppState :=
  {| Netlify.tickets := []; Netlify.user := Some alice; Netlify.title := [];
     Netlify.description := []; Netlify.loading := false;
     Netlify.view := AllTickets |}.

(** The modal variant, with the dialog open on ticket [t1]. *)
Definition modal_open : Canvas.AppState :=
  {| Canvas.tickets := [ticket_of_doc older_doc]; Canvas.user := Some bob;
     Canvas.title := []; Canvas.description := []; Canvas.loading := false;
     Canvas.view := MyTickets; Canvas.db := true;
     Canvas.showConfirmModal := true;
     Canvas.ticketToDeleteId := Some (js "t1") |}.

Definition one_ticket_world : World :=
  {| collection := {[ older_doc.1 := older_doc.2 ]}; requests := []; console := [] |}.


(** ** The remaining parts of the components *)

(** [StatusBadge]: the class of the badge and the text it shows. *)
Definition baseStyle : string := "px-3 py-1 text-xs font-semibold rounded-full".

Definition defaultColorStyle : string := "bg-gray-100 text-gray-800".

(** The [switch (status)] of [StatusBadge]. *)
Definition colorStyle (status : jsstring) : string :=
  if decide (status = js "Open") then "bg-yellow-100 text-yellow-800"
  else if decide (status = js "In Progress") then "bg-blue-100 text-blue-800"
  else if decide (status = js "Resolved") then "bg-green-100 text-green-800"
  else defaultColorStyle.

Record Span := { className : string; children : jsstring }.

Definition StatusBadge (status : jsstring) : Span :=
  {| className := (baseStyle ++ " " ++ colorStyle status)%string;
     children := status |}.

(** The sign-in calls of the identity provider. *)
Inductive AuthCall :=
  | signInAnonymously
  | signInWithCustomToken (token : jsstring).

(** What [App] returns. *)
Inductive Screen :=
  | ConfigurationError
  | InitializationError
  | Connecting
  | MainPage.

(** The effects and the render gate of src/src/App.jsx. *)
Module VercelApp.

Definition setUser (u : option User) (st : Vercel.AppState) : Vercel.AppState :=
  {| Vercel.tickets := Vercel.tickets st; Vercel.user := u;
     Vercel.title := Vercel.title st; Vercel.description := Vercel.description st;
     Vercel.loading := Vercel.loading st; Vercel.view := Vercel.view st |}.

Definition setLoading (b : bool) (st : Vercel.AppState) : Vercel.AppState :=
  {| Vercel.tickets := Vercel.tickets st; Vercel.user := Vercel.user st;
     Vercel.title := Vercel.title st; Vercel.description := Vercel.description st;
     Vercel.loading := b; Vercel.view := Vercel.view st |}.

(** [authenticateUser]: [await signInAnonymously(auth)] under try/catch. *)
Definition authenticateUser (r : Settled unit) (w : World) : World * list AuthCall :=
  match r with
  | Fulfilled _ => (w, [signInAnonymously])
  | Rejected err => (console_error "Authentication failed:" err w, [signInAnonymously])
  end.

(** The callback handed to [onAuthStateChanged]; [r] settles the sign-in it
    may start. *)
Definition onAuthStateChanged (currentUser : option User) (r : Settled unit)
    (st : Vercel.AppState) (w : World) : Vercel.AppState * World * list AuthCall :=
  let st := setUser currentUser st in
  let '(w, calls) :=
    if user_falsy currentUser then authenticateUser r w else (w, []) in
  (setLoading false st, w, calls).

(** The data listener effect: the query it subscribes to, if any ([db] is
    set whenever the hooks of this variant run). *)
Definition dataListener (st : Vercel.AppState) : option Query :=
  match Vercel.user st with
  | None => None
  | Some u => Some (ticketsQuery (Vercel.view st) u)
  end.

(** The returns of [App] before the page proper. *)
Definition App (isConfigAvailable servicesSet : bool) (st : Vercel.AppState) : Screen :=
  if negb isConfigAvailable then ConfigurationError
  else if negb servicesSet then InitializationError
  else if Vercel.loading st then Connecting
  else MainPage.

(** [disabled={!user}] on the submit button. *)
Definition submitDisabled (st : Vercel.AppState) : bool := user_falsy (Vercel.user st).

End VercelApp.

(** The effects and the render gate of the modal variant. *)
Module CanvasApp.

Definition setUser (u : option User) (st : Canvas.AppState) : Canvas.AppState :=
  {| Canvas.tickets := Canvas.tickets st; Canvas.user := u;
     Canvas.title := Canvas.title st; Canvas.description := Canvas.description st;
     Canvas.loading := Canvas.loading st; Canvas.view := Canvas.view st;
     Canvas.db := Canvas.db st;
     Canvas.showConfirmModal := Canvas.showConfirmModal st;
     Canvas.ticketToDeleteId := Canvas.ticketToDeleteId st |}.

Definition setLoading (b : bool) (st : Canvas.AppState) : Canvas.AppState :=
  {| Canvas.tickets := Canvas.tickets st; Canvas.user := Canvas.user st;
     Canvas.title := Canvas.title st; Canvas.description := Canvas.description st;
     Canvas.loading := b; Canvas.view := Canvas.view st;
     Canvas.db := Canvas.db st;
     Canvas.showConfirmModal := Canvas.showConfirmModal st;
     Canvas.ticketToDeleteId := Canvas.ticketToDeleteId st |}.

(** [setFirebaseServices({ auth, db })]: both are set together, so [db]
    stands for the pair. *)
Definition setFirebaseServices (b : bool) (st : Canvas.AppState) : Canvas.AppState :=
  {| Canvas.tickets := Canvas.tickets st; Canvas.user := Canvas.user st;
     Canvas.title := Canvas.title st; Canvas.description := Canvas.description st;
     Canvas.loading := Canvas.loading st; Canvas.view := Canvas.view st;
     Canvas.db := b;
     Canvas.showConfirmModal := Canvas.showConfirmModal st;
     Canvas.ticketToDeleteId := Canvas.ticketToDeleteId st |}.

(** [if (initialAuthToken)]: [null] and the empty string are falsy. *)
Definition token_truthy (t : option jsstring) : option jsstring :=
  match t with
  | Some (c :: s) => Some (c :: s)
  | _ => None
  end.

(** [authenticateUser]: the custom token when one is injected, the
    anonymous sign-in otherwise. *)
Definition authenticateUser (initialAuthToken : option jsstring) (r : Settled unit)
    (w : World) : World * list AuthCall :=
  let call := match token_truthy initialAuthToken with
              | Some t => signInWithCustomToken t
              | None => signInAnonymously
              end in
  match r with
  | Fulfilled _ => (w, [call])
  | Rejected err => (console_error "Authentication failed:" err w, [call])
  end.

Definition onAuthStateChanged (initialAuthToken : option jsstring)
    (currentUser : option User) (r : Settled unit)
    (st : Canvas.AppState) (w : World) : Canvas.AppState * World * list AuthCall :=
  let st := setUser currentUser st in
  let '(w, calls) :=
    if user_falsy currentUser then authenticateUser initialAuthToken r w
    else (w, []) in
  (setLoading false st, w, calls).

(** How the body of the initialization effect ends: without an exception,
    or with one thrown while the services are created, or with one thrown by
    the subscription to the auth state, after the services were stored. *)
Inductive InitOutcome :=
  | Initialized
  | ThrowsBeforeServices (e : jsstring)
  | ThrowsAfterServices (e : jsstring).

(** The initialization effect; [configPresent] is [!!firebaseConfig].  A
    [console.error] with the message alone is recorded with an empty second
    argument. *)
Definition initialize (configPresent : bool) (o : InitOutcome)
    (st : Canvas.AppState) (w : World) : Canvas.AppState * World :=
  if negb configPresent
  then (setLoading false st,
        console_error "Firebase configuration is missing. Cannot initialize." [] w)
  else
    match o with
    | Initialized => (setFirebaseServices true st, w)
    | ThrowsBeforeServices e =>
        (setLoading false st, console_error "Firebase initialization failed:" e w)
    | ThrowsAfterServices e =>
        (setLoading false (setFirebaseServices true st),
         console_error "Firebase initialization failed:" e w)
    end.

(** The data listener effect: [if (!user || !db) return;]. *)
Definition dataListener (st : Canvas.AppState) : option Query :=
  match Canvas.user st with
  | None => None
  | Some u => if Canvas.db st then Some (ticketsQuery (Canvas.view st) u) else None
  end.

(** The returns of [App] before the page proper. *)
Definition App (st : Canvas.AppState) : Screen :=
  if Canvas.loading st then Connecting
  else if negb (Canvas.db st) then InitializationError
  else MainPage.

(** The state of the first render: every [useState] at its initial value. *)
Definition initial : Canvas.AppState :=
  {| Canvas.tickets := []; Canvas.user := None; Canvas.title := [];
     Canvas.description := []; Canvas.loading := true; Canvas.view := MyTickets;
     Canvas.db := false; Canvas.showConfirmModal := false;
     Canvas.ticketToDeleteId := None |}.

(** What [JSON.parse(__firebase_config)] does with the injected text: it
    throws, or returns a value, of which [!firebaseConfig] reads only whether
    it is truthy (the text [null] parses to a falsy value). *)
Inductive Parsed :=
  | ParseThrows (e : jsstring)
  | ParsedValue (truthy : bool).

(** The module scope:
    [typeof __firebase_config !== 'undefined' ? JSON.parse(__firebase_config) : null],
    evaluated outside any [try].  [None] is an undefined global.  On the
    left the exception that ends the evaluation of the module, on the right
    [!!firebaseConfig]. *)
Definition firebaseConfig (injected : option Parsed) : jsstring + bool :=
  match injected with
  | None => inr false
  | Some (ParseThrows e) => inl e
  | Some (ParsedValue truthy) => inr truthy
  end.

(** Loading the module and mounting [App]: when the module scope throws
    there is no component and nothing is rendered; otherwise the first
    render is followed by the initialization effect. *)
Definition mount (injected : option Parsed) (o : InitOutcome) (w : World)
  : option (Canvas.AppState * World) :=
  match firebaseConfig injected with
  | inl _ => None
  | inr configPresent => Some (initialize configPresent o initial w)
  end.

(** The documents of the last snapshot of a run, if there was one. *)
Fixpoint last_snapshot (evs : list Canvas.UIEvent)
  : option (list (DocId * Doc.t)) :=
  match evs with
  | [] => None
  | ev :: evs' =>
      match last_snapshot evs' with
      | Some docs => Some docs
      | None => match ev with Canvas.Snapshot docs => Some docs | _ => None end
      end
  end.

(** An event whose provider call, if it makes one, is fulfilled, and which
    is not a subscription error. *)
Definition succeeds (ev : Canvas.UIEvent) : bool :=
  match ev with
  | Canvas.Submit _ (Rejected _) => false
  | Canvas.ChangeStatus _ _ (Rejected _) => false
  | Canvas.ClickConfirm (Rejected _) => false
  | Canvas.SnapshotError _ => false
  | _ => true
  end.

(** An event whose handler awaits a call of the document store. *)
Definition calls_provider (ev : Canvas.UIEvent) : bool :=
  match ev with
  | Canvas.Submit _ _ | Canvas.ChangeStatus _ _ _ | Canvas.ClickConfirm _ => true
  | _ => false
  end.

End CanvasApp.

(** A ticket's status is none of the three the statistics count. *)
Definition gray_badge (t : Ticket.t) : bool :=
  bool_decide (colorStyle (Ticket.status t) = defaultColorStyle).

(** A collection with a ticket of Alice and one of Bob, and Alice looking
    at 'My Tickets' and at 'Stats'. *)
Definition two_ticket_world : World :=
  {| collection := <[ pending_doc.1 := pending_doc.2 ]> {[ older_doc.1 := older_doc.2 ]};
     requests := []; console := [] |}.

(** A document as a snapshot shows it while its [serverTimestamp()] is not
    yet resolved: [createdAt] reads [null], the 'missing serverTimestamp'
    for which the sort falls back to 0. *)
Definition unresolved (d : Doc.t) : Doc.t :=
  Doc.mk (Doc.title d) (Doc.description d) (Doc.status d) (Doc.userId d) None.

(** A collection with an older ticket of Alice and one of Bob, and the
    document that the form of the example creates in it. *)
Definition alice_bob_world : World :=
  {| collection := <[ newer_doc.1 := newer_doc.2 ]> {[ older_doc.1 := older_doc.2 ]};
     requests := []; console := [] |}.

Definition refund_doc : Doc.t :=
  Doc.mk (js "Refund for order #457") (js "Double-charged") (js "Open")
         (js "alice") (Some {| toMillis := 1700000000900 |}).

(** The modal variant showing Bob his ticket [t1], dialog closed and no
    pending id. *)
Definition modal_closed : Canvas.AppState :=
  {| Canvas.tickets := [ticket_of_doc older_doc]; Canvas.user := Some bob;
     Canvas.title := []; Canvas.description := []; Canvas.loading := false;
     Canvas.view := MyTickets; Canvas.db := true;
     Canvas.showConfirmModal := false;
     Canvas.ticketToDeleteId := None |}.

Definition alice_stats_view : Vercel.AppState :=
  {| Vercel.tickets := []; Vercel.user := Some alice; Vercel.title := [];
     Vercel.description := []; Vercel.loading := false; Vercel.view := Stats |}.
(** * Properties *)

(** ** Strings *)

Lemma trimStart_suffix s : ∃ p, s = p ++ trimStart s ∧ whitespace_only p.
Proof.
  induction s as [|c s IH]; simpl.
  - exists []. split; [done | constructor].
  - destruct (isTrimmable c) eqn:Hc.
    + destruct IH as (p & Hp & Hws). exists (c :: p). split.
      * simpl. by f_equal.
      * by constructor.
    + exists []. split; [done | constructor].
Qed.

Lemma trimStart_head s c : head (trimStart s) = Some c → isTrimmable c = false.
Proof.
  induction s as [|d s IH]; simpl; [done|].
  destruct (isTrimmable d) eqn:Hd; [done|].
  simpl. intros [= ->]. done.
Qed.

Lemma trimStart_nil s : trimStart s = [] ↔ whitespace_only s.
Proof.
  induction s as [|c s IH]; simpl.
  - split; [constructor | done].
  - destruct (isTrimmable c) eqn:Hc.
    + rewrite IH. split; [by constructor | by inversion 1].
    + split; [done | inversion 1; congruence].
Qed.

Lemma whitespace_only_reverse s : whitespace_only (reverse s) ↔ whitespace_only s.
Proof. apply Forall_reverse. Qed.

Lemma trimEnd_prefix s : ∃ q, s = trimEnd s ++ q ∧ whitespace_only q.
Proof.
  unfold trimEnd. destruct (trimStart_suffix (reverse s)) as (p & Hp & Hws).
  exists (reverse p). split.
  - rewrite <- reverse_app, <- Hp. by rewrite reverse_involutive.
  - by apply whitespace_only_reverse.
Qed.

Lemma trimEnd_last s c : last (trimEnd s) = Some c → isTrimmable c = false.
Proof.
  unfold trimEnd. rewrite last_reverse. apply trimStart_head.
Qed.

Lemma trim_trimmed s : trimmed (trim s).
Proof.
  split; intros c Hc.
  - unfold trim in Hc. destruct (trimEnd_prefix (trimStart s)) as (q & Hq & _).
    apply (trimStart_head s). rewrite Hq.
    destruct (trimEnd (trimStart s)); [done | exact Hc].
  - eapply trimEnd_last, Hc.
Qed.

Lemma trim_nil s : trim s = [] ↔ whitespace_only s.
Proof.
  unfold trim. destruct (trimEnd_prefix (trimStart s)) as (q & Hq & Hws).
  destruct (trimStart_suffix s) as (p & Hp & Hwp).
  split.
  - intros E. rewrite E in Hq. simpl in Hq. rewrite Hp, Hq.
    apply Forall_app. done.
  - intros Hs. apply trimStart_nil in Hs. rewrite Hs. done.
Qed.

Lemma str_falsy_trim s : str_falsy (trim s) = true ↔ whitespace_only s.
Proof.
  rewrite <- trim_nil. destruct (trim s); simpl; split; done.
Qed.

Lemma str_truthy_trim s : str_falsy (trim s) = false ↔ trim s ≠ [].
Proof. destruct (trim s); simpl; split; done. Qed.

Example trim_refund :
  trim (js "  Refund for order #457 ") = js "Refund for order #457".
Proof. reflexivity. Qed.

Example trim_no_break_space :
  trim [0xA0; 0x2028; 0x41; 0x20; 0x42; 0x09]%N = [0x41; 0x20; 0x42]%N.
Proof. reflexivity. Qed.

(** ** Sorting by a key, newest first *)

Section SortByKey.
Context {A : Type} (key : A → Z) (comparefn : A → A → Z).
Hypothesis comparefn_key : ∀ a b, comparefn a b = key b - key a.

Let newest_first (a b : A) : Prop := key b ≤ key a.

Lemma sort_insert_perm x l : sort_insert comparefn x l ≡ₚ x :: l.
Proof.
  induction l as [|y l IH]; simpl; [done|].
  destruct (0 <? comparefn x y); [|done].
  rewrite IH. apply Permutation_swap.
Qed.

Lemma js_sort_perm l : js_sort comparefn l ≡ₚ l.
Proof.
  induction l as [|x l IH]; simpl; [done|].
  by rewrite sort_insert_perm, IH.
Qed.

Lemma sort_insert_sorted x l :
  StronglySorted newest_first l →
  StronglySorted newest_first (sort_insert comparefn x l).
Proof.
  induction 1 as [|y l Hs IH Hy]; simpl.
  - repeat constructor.
  - rewrite comparefn_key. destruct (0 <? key y - key x) eqn:E.
    + apply Z.ltb_lt in E. constructor; [done|].
      rewrite sort_insert_perm. constructor; [|done].
      unfold newest_first. lia.
    + apply Z.ltb_ge in E. constructor; [by constructor|].
      constructor; [unfold newest_first; lia|].
      eapply Forall_impl; [exact Hy|]. unfold newest_first. intros; lia.
Qed.

Lemma js_sort_sorted l : StronglySorted newest_first (js_sort comparefn l).
Proof.
  induction l as [|x l IH]; simpl; [constructor|].
  by apply sort_insert_sorted.
Qed.

Lemma sort_insert_filter k x l :
  filter (λ a, key a = k) (sort_insert comparefn x l)
  = filter (λ a, key a = k) (x :: l).
Proof.
  induction l as [|y l IH]; simpl; [done|].
  rewrite comparefn_key. destruct (0 <? key y - key x) eqn:E; [|done].
  apply Z.ltb_lt in E. rewrite (filter_cons _ y), IH, !filter_cons.
  repeat case_decide; done || lia.
Qed.

Lemma js_sort_stable k l :
  filter (λ a, key a = k) (js_sort comparefn l) = filter (λ a, key a = k) l.
Proof.
  induction l as [|x l IH]; simpl; [done|].
  by rewrite sort_insert_filter, !filter_cons, IH.
Qed.

(** A sorted list is determined by the order inside each key class: the
    stable sort of a list is unique. *)
Lemma stable_sorted_unique l1 l2 :
  StronglySorted newest_first l1 → StronglySorted newest_first l2 →
  (∀ k, filter (λ a, key a = k) l1 = filter (λ a, key a = k) l2) →
  l1 = l2.
Proof.
  intros H1. revert l2. induction H1 as [|a l1 Hs1 IH Ha]; intros l2 H2 Hf.
  - destruct l2 as [|b l2]; [done|].
    specialize (Hf (key b)). rewrite filter_cons_True in Hf by done. done.
  - destruct H2 as [|b l2 Hs2 Hb].
    + specialize (Hf (key a)). rewrite filter_cons_True in Hf by done. done.
    + assert (key a = key b) as Hk.
      { pose proof (Hf (key a)) as Fa. pose proof (Hf (key b)) as Fb.
        rewrite (filter_cons_True _ a) in Fa by done.
        rewrite (filter_cons_True _ b l2) in Fb by done.
        assert (a ∈ filter (λ x, key x = key a) (b :: l2)) as Ia
          by (rewrite <- Fa; left).
        assert (b ∈ filter (λ x, key x = key b) (a :: l1)) as Ib
          by (rewrite Fb; left).
        apply list_elem_of_filter in Ia as [_ Ia].
        apply list_elem_of_filter in Ib as [_ Ib].
        apply elem_of_cons in Ia as [->|Ia]; [done|].
        apply elem_of_cons in Ib as [->|Ib]; [done|].
        rewrite Forall_forall in Ha, Hb.
        specialize (Ha _ Ib). specialize (Hb _ Ia).
        unfold newest_first in *. lia. }
      pose proof (Hf (key a)) as Fa.
      rewrite (filter_cons_True _ a) in Fa by done.
      rewrite (filter_cons_True _ b) in Fa by done.
      injection Fa as -> Ft. f_equal. apply IH; [done|].
      intros k. specialize (Hf k). rewrite !filter_cons in Hf.
      case_decide; [|done]. subst k. done.
Qed.

Lemma sorted_lookup_lt l i j a b :
  StronglySorted newest_first l → (i < j)%nat →
  l !! i = Some a → l !! j = Some b → key b ≤ key a.
Proof.
  intros Hs. revert i j. induction Hs as [|x l Hs IH Hx]; intros i j Hij Hi Hj.
  - done.
  - destruct j as [|j]; [lia|]. simpl in Hj. destruct i as [|i].
    + simpl in Hi. injection Hi as ->. rewrite Forall_forall in Hx.
      apply Hx. by eapply list_elem_of_lookup_2.
    + simpl in Hi. eapply (IH i j); [lia|done|done].
Qed.

Lemma js_sort_head_max l x :
  x ∈ l → (∀ y, y ∈ l → y = x ∨ key y < key x) →
  head (js_sort comparefn l) = Some x.
Proof.
  intros Hin Hmax.
  pose proof (js_sort_sorted l) as Hs. pose proof (js_sort_perm l) as Hp.
  destruct (js_sort comparefn l) as [|z l'] eqn:E.
  - rewrite <- Hp in Hin. by apply elem_of_nil in Hin.
  - simpl. f_equal. destruct (decide_rel (≤) (key x) (key z)) as [Hle|Hgt].
    + assert (z ∈ l) as Hz by (rewrite <- Hp; left).
      destruct (Hmax z Hz) as [->|Hlt]; [done|lia].
    + rewrite <- Hp in Hin. apply elem_of_cons in Hin as [->|Hin]; [done|].
      apply StronglySorted_inv in Hs as [_ Hz].
      rewrite Forall_forall in Hz. specialize (Hz _ Hin).
      unfold newest_first in Hz. lia.
Qed.
End SortByKey.

(** ** Handlers: what a run of each leaves behind *)

Lemma createTicket_guard_Vercel e r st w :
  whitespace_only (Vercel.title st) ∨ whitespace_only (Vercel.description st)
  ∨ Vercel.user st = None →
  Vercel.createTicket e r st w = (preventDefault e, st, w).
Proof.
  intros H. unfold Vercel.createTicket.
  destruct H as [H|[H|H]].
  - apply str_falsy_trim in H. by rewrite H.
  - apply str_falsy_trim in H. rewrite H. by rewrite orb_true_r.
  - rewrite H. simpl. by rewrite !orb_true_r.
Qed.

Lemma createTicket_guard_Canvas e r st w :
  whitespace_only (Canvas.title st) ∨ whitespace_only (Canvas.description st)
  ∨ Canvas.user st = None ∨ Canvas.db st = false →
  Canvas.createTicket e r st w = (preventDefault e, st, w).
Proof.
  intros H. unfold Canvas.createTicket.
  destruct H as [H|[H|[H|H]]].
  - apply str_falsy_trim in H. by rewrite H.
  - apply str_falsy_trim in H. rewrite H. by rewrite orb_true_r.
  - rewrite H. simpl. by rewrite !orb_true_r.
  - rewrite H. simpl. by rewrite !orb_true_r.
Qed.

Lemma createTicket_proceeds_Vercel e r st w u :
  trim (Vercel.title st) ≠ [] → trim (Vercel.description st) ≠ [] →
  Vercel.user st = Some u →
  Vercel.createTicket e r st w =
    match addDoc (Payload.mk (trim (Vercel.title st)) (trim (Vercel.description st))
                    (js "Open") (uid u) serverTimestamp) r w with
    | (Fulfilled _, w') =>
        (preventDefault e, Vercel.setDescription [] (Vercel.setTitle [] st), w')
    | (Rejected err, w') =>
        (preventDefault e, st, console_error "Error creating document: " err w')
    end.
Proof.
  intros Ht Hd Hu. unfold Vercel.createTicket.
  apply str_truthy_trim in Ht, Hd. rewrite Ht, Hd, Hu. done.
Qed.

(** C1 (amended).  When the title or the description is empty or
    whitespace-only, or there is no user (in the modal variant also: no
    [db]), [createTicket] does nothing beyond [e.preventDefault()]: the
    component state and the whole world (collection, requests sent, console)
    are returned as they were.  No document is created, and nothing is
    logged. *)
Theorem createTicket_rejects_silently (e : FormEvent) (r : Settled (DocId * Timestamp))
    (w : World) :
  (∀ st, whitespace_only (Vercel.title st) ∨ whitespace_only (Vercel.description st)
         ∨ Vercel.user st = None →
         Vercel.createTicket e r st w = (preventDefault e, st, w)) ∧
  (∀ st, whitespace_only (Canvas.title st) ∨ whitespace_only (Canvas.description st)
         ∨ Canvas.user st = None ∨ Canvas.db st = false →
         Canvas.createTicket e r st w = (preventDefault e, st, w)).
Proof.
  split; intros st H.
  - by apply createTicket_guard_Vercel.
  - by apply createTicket_guard_Canvas.
Qed.

Lemma createTicket_rejects_silently_witness :
  whitespace_only (Vercel.title blank_form) ∧
  Vercel.createTicket submit_event (Fulfilled (js "t9", {| toMillis := 5 |}))
                      blank_form empty_world
  = (preventDefault submit_event, blank_form, empty_world).
Proof.
  assert (whitespace_only (Vercel.title blank_form)) as H
    by (repeat constructor).
  split; [exact H|].
  apply (proj1 (createTicket_rejects_silently submit_event
                  (Fulfilled (js "t9", {| toMillis := 5 |})) empty_world)).
  left. exact H.
Defined.

(** C1, as stated, fails: the rejected submission of a blank title leaves
    the console as it was, so the rejection is not logged. *)
Lemma createTicket_rejection_not_logged :
  whitespace_only (Vercel.title blank_form) ∧
  ¬ logged_once empty_world
      (Vercel.createTicket submit_event (Rejected (js "unavailable"))
                           blank_form empty_world).2.
Proof.
  split; [repeat constructor|].
  intros [entry H]. vm_compute in H. discriminate H.
Qed.

(** ** The snapshot handler *)

Lemma byCreatedAtDesc_key a b : byCreatedAtDesc a b = sortKey b - sortKey a.
Proof. reflexivity. Qed.

Lemma sorted_tickets_displayed_order (input : list Ticket.t) :
  displayed_order input (js_sort byCreatedAtDesc input).
Proof.
  pose proof (js_sort_sorted sortKey byCreatedAtDesc byCreatedAtDesc_key input) as Hs.
  repeat split.
  - apply js_sort_perm.
  - exact Hs.
  - intros k. apply (js_sort_stable sortKey byCreatedAtDesc byCreatedAtDesc_key).
  - intros t _ Ht. unfold sortKey. by rewrite Ht.
  - intros i j t u Hi Hj Ht Hu.
    assert (sortKey t = 0) as Hk by (unfold sortKey; by rewrite Ht).
    destruct (decide (j < i)%nat) as [|Hge]; [done|exfalso].
    destruct (decide (i = j)) as [->|Hne].
    + rewrite Hi in Hj. injection Hj as ->. lia.
    + pose proof (sorted_lookup_lt sortKey _ i j t u Hs ltac:(lia) Hi Hj). lia.
Qed.

Example snapshot_sorted_newest_first :
  map Ticket.id
    (Vercel.tickets (Vercel.onSnapshot [pending_doc; older_doc; newer_doc] refund_form))
  = [js "t3"; js "t1"; js "t2"].
Proof. reflexivity. Qed.

(** The order on display is determined by the snapshot alone: any two
    arrangements that meet [displayed_order] coincide, so the engine's choice
    of sorting algorithm does not show. *)
Lemma displayed_order_unique input l1 l2 :
  displayed_order input l1 → displayed_order input l2 → l1 = l2.
Proof.
  intros (_ & S1 & F1 & _) (_ & S2 & F2 & _).
  apply (stable_sorted_unique sortKey); [done|done|].
  intros k. by rewrite F1, F2.
Qed.

(** C2 (amended).  In src/src/App.jsx and in the modal variant the list
    stored by the snapshot handler is the stable sort of the snapshot by
    creation time, newest first: a permutation of the snapshot, sort keys
    non-increasing, tickets of equal key in snapshot order; a ticket without
    a resolved timestamp has key 0 and is never followed by a ticket with a
    positive timestamp.  The variant whose query carries [orderBy] stores the
    snapshot in the order it arrives. *)
Theorem snapshot_display_order (docs : list (DocId * Doc.t)) :
  (∀ st, displayed_order (map ticket_of_doc docs)
           (Vercel.tickets (Vercel.onSnapshot docs st))) ∧
  (∀ st, displayed_order (map ticket_of_doc docs)
           (Canvas.tickets (Canvas.onSnapshot docs st))) ∧
  (∀ st, Netlify.tickets (Netlify.onSnapshot docs st) = map ticket_of_doc docs).
Proof.
  repeat split; try apply sorted_tickets_displayed_order; done.
Qed.

(** C2, as stated, fails on the [orderBy] variant: a snapshot that lists a
    pending write before an older ticket is stored in that order, the
    undated ticket first. *)
Lemma Netlify_snapshot_stored_unsorted :
  Netlify.tickets (Netlify.onSnapshot [pending_doc; older_doc] netlify_start)
  = [ticket_of_doc pending_doc; ticket_of_doc older_doc] ∧
  ¬ displayed_order (map ticket_of_doc [pending_doc; older_doc])
      (Netlify.tickets (Netlify.onSnapshot [pending_doc; older_doc] netlify_start)).
Proof.
  split; [reflexivity|].
  intros (_ & _ & _ & _ & Hlast).
  specialize (Hlast 0%nat 1%nat (ticket_of_doc pending_doc) (ticket_of_doc older_doc)
                eq_refl eq_refl eq_refl).
  assert (0 < sortKey (ticket_of_doc older_doc)) as Hpos by (vm_compute; done).
  specialize (Hlast Hpos). lia.
Qed.

(** ** Statistics *)

Section Statistics.
Variable Number_toString : float → jsstring.

Lemma percent_trap_agrees count total :
  percent_trap Number_toString count total
  = Some (percent Number_toString count total).
Proof.
  unfold percent_trap, percent, trapping_div.
  destruct total as [|n]; simpl; done.
Qed.

Lemma stats_trap_agrees tickets :
  stats_trap Number_toString tickets = Some (stats Number_toString tickets).
Proof.
  unfold stats_trap, stats. rewrite !percent_trap_agrees. simpl. done.
Qed.

Lemma filter_has_status_count s tickets :
  length (List.filter (has_status s) tickets) = count_status (js s) tickets.
Proof.
  induction tickets as [|t l IH]; simpl; [done|].
  unfold has_status at 1. destruct (decide (Ticket.status t = js s)) as [E|E].
  - rewrite bool_decide_eq_true_2 by done. simpl. by rewrite IH.
  - rewrite bool_decide_eq_false_2 by done. simpl. by rewrite IH.
Qed.

Lemma count_status_sum tickets :
  (count_status (js "Open") tickets + count_status (js "In Progress") tickets
   + count_status (js "Resolved") tickets ≤ length tickets)%nat ∧
  ((count_status (js "Open") tickets + count_status (js "In Progress") tickets
    + count_status (js "Resolved") tickets = length tickets)%nat
   ↔ Forall known_status tickets).
Proof.
  induction tickets as [|t l [IHle IHeq]]; simpl.
  - split; [lia|]. split; [constructor|done].
  - assert (js "Open" ≠ js "In Progress") as D1 by (vm_compute; discriminate).
    assert (js "Open" ≠ js "Resolved") as D2 by (vm_compute; discriminate).
    assert (js "In Progress" ≠ js "Resolved") as D3 by (vm_compute; discriminate).
    rewrite Forall_cons, <- IHeq. unfold known_status.
    destruct (decide (Ticket.status t = js "Open")) as [E1|E1],
             (decide (Ticket.status t = js "In Progress")) as [E2|E2],
             (decide (Ticket.status t = js "Resolved")) as [E3|E3];
      try congruence; (split; [lia|]);
      (split; [intros Hx; split; [tauto || lia | lia]
              |intros [Hk Hx]; first [lia | tauto]]).
Qed.
End Statistics.

Example stats_three_tickets :
  stats no_toString three_tickets
  = {| total := 3; open := 1; inProgress := 1; resolved := 1;
       openPercent := JsString (js "33.3");
       inProgressPercent := JsString (js "33.3");
       resolvedPercent := JsString (js "33.3") |}.
Proof. vm_compute. reflexivity. Qed.

Example stats_no_tickets :
  stats no_toString []
  = {| total := 0; open := 0; inProgress := 0; resolved := 0;
       openPercent := JsNumber 0; inProgressPercent := JsNumber 0;
       resolvedPercent := JsNumber 0 |}.
Proof. reflexivity. Qed.

(** C3.  On the empty list the three percentages are the number 0; the
    aggregator is a function defined on every list, and with a division that
    traps on a zero divisor it still returns its result on every list, so no
    division by zero is ever evaluated. *)
Theorem stats_empty_no_division_by_zero (Number_toString : float → jsstring) :
  openPercent (stats Number_toString []) = JsNumber 0 ∧
  inProgressPercent (stats Number_toString []) = JsNumber 0 ∧
  resolvedPercent (stats Number_toString []) = JsNumber 0 ∧
  (∀ tickets, total (stats Number_toString tickets) = 0%nat ↔ tickets = []) ∧
  (∀ tickets, stats_trap Number_toString tickets
              = Some (stats Number_toString tickets)).
Proof.
  repeat split; try reflexivity.
  - simpl. by intros ?%nil_length_inv.
  - by intros ->.
  - apply stats_trap_agrees.
Qed.

(** C9.  Each of [open], [inProgress], [resolved] is the number of tickets
    whose status is exactly the corresponding string; their sum is at most
    [total], with equality exactly when every status is one of the three; a
    ticket with another status adds one to [total] and nothing to the three
    counts. *)
Theorem stats_counts (Number_toString : float → jsstring) (tickets : list Ticket.t) :
  let s := stats Number_toString tickets in
  total s = length tickets ∧
  open s = count_status (js "Open") tickets ∧
  inProgress s = count_status (js "In Progress") tickets ∧
  resolved s = count_status (js "Resolved") tickets ∧
  (open s + inProgress s + resolved s ≤ total s)%nat ∧
  ((open s + inProgress s + resolved s = total s)%nat ↔ Forall known_status tickets) ∧
  (∀ t, ¬ known_status t →
     let s' := stats Number_toString (t :: tickets) in
     total s' = S (total s) ∧ open s' = open s ∧
     inProgress s' = inProgress s ∧ resolved s' = resolved s).
Proof.
  simpl. rewrite !filter_has_status_count.
  destruct (count_status_sum tickets) as [Hle Heq].
  repeat split; try done; try apply Heq.
  all: unfold has_status at 1; rewrite bool_decide_eq_false_2;
    [apply filter_has_status_count|].
  all: unfold known_status in *; tauto.
Qed.

(** ** Cards: who is offered what *)






(** ** Deleting *)

Lemma addDoc_keeps_documents p r w k :
  is_Some (collection w !! k) → is_Some (collection (addDoc p r w).2 !! k).
Proof.
  intros Hk. unfold addDoc. destruct r as [[newId now]|err]; simpl; [|done].
  destruct (decide (newId = k)) as [->|Hne].
  - rewrite lookup_insert_eq. by eexists.
  - by rewrite lookup_insert_ne.
Qed.

Lemma updateDoc_keeps_documents id data r w k :
  is_Some (collection w !! k) → is_Some (collection (updateDoc id data r w).2 !! k).
Proof.
  intros Hk. unfold updateDoc. destruct r as [[]|err]; simpl; [|done].
  destruct (decide (id = k)) as [->|Hne].
  - rewrite lookup_alter_eq. destruct Hk as [d ->]. by eexists.
  - by rewrite lookup_alter_ne.
Qed.

Lemma step_keeps_documents ev s k :
  Canvas.is_confirm ev = false →
  is_Some (collection s.2 !! k) →
  is_Some (collection (Canvas.step ev s).2 !! k).
Proof.
  intros Hev Hk. destruct s as [st w]. destruct ev; simpl in *; try done.
  - unfold Canvas.createTicket.
    destruct (_ || _); [done|]. destruct (Canvas.user st); [|done].
    pose proof (addDoc_keeps_documents
      (Payload.mk (trim (Canvas.title st)) (trim (Canvas.description st))
                  (js "Open") (uid u) serverTimestamp) r w k Hk) as H.
    destruct (addDoc _ r w) as [[?|?] w']; simpl in *; done.
  - unfold Canvas.updateTicketStatus. destruct (negb _); [done|].
    pose proof (updateDoc_keeps_documents ticketId
                  {| patch_status := newStatus |} r w k Hk) as H.
    destruct (updateDoc _ _ r w) as [[?|?] w']; simpl in *; done.
Qed.

Lemma run_keeps_documents evs s k :
  forallb (λ ev, negb (Canvas.is_confirm ev)) evs = true →
  is_Some (collection s.2 !! k) →
  is_Some (collection (Canvas.run evs s).2 !! k).
Proof.
  revert s. induction evs as [|ev evs IH]; intros s Hevs Hk; simpl in *; [done|].
  apply andb_true_iff in Hevs as [Hev Hevs]. apply negb_true_iff in Hev.
  apply IH; [done|]. destruct (Canvas.offered s.1 ev); [|done].
  by apply step_keeps_documents.
Qed.

Lemma deleteTicket_pending r st w id :
  Canvas.db st = true → id ≠ [] → Canvas.ticketToDeleteId st = Some id →
  Canvas.deleteTicket r st w =
    let closed := Canvas.setTicketToDeleteId None (Canvas.setShowConfirmModal false st) in
    match deleteDoc id r w with
    | (Fulfilled _, w') => (closed, w')
    | (Rejected err, w') => (closed, console_error "Error deleting document: " err w')
    end.
Proof.
  intros Hdb Hid Hpend. unfold Canvas.deleteTicket. rewrite Hpend, Hdb. simpl.
  destruct id; [done|]. done.
Qed.

Lemma phase_idle_iff st :
  Canvas.phase st = Canvas.idle ↔ Canvas.showConfirmModal st = false.
Proof.
  unfold Canvas.phase, Canvas.ConfirmationModal.
  destruct (Canvas.showConfirmModal st); simpl; split; done.
Qed.

Lemma createTicket_keeps_modal e r st w :
  Canvas.showConfirmModal (Canvas.createTicket e r st w).1.2
  = Canvas.showConfirmModal st.
Proof.
  unfold Canvas.createTicket. destruct (_ || _); [done|].
  destruct (Canvas.user st); [|done].
  destruct (addDoc _ r w) as [[?|?] w']; done.
Qed.

Lemma step_stays_idle ev st w :
  Canvas.phase st = Canvas.idle → Canvas.is_trigger ev = false →
  Canvas.offered st ev = true →
  Canvas.phase (Canvas.step ev (st, w)).1 = Canvas.idle
  ∧ Canvas.is_confirm ev = false.
Proof.
  intros Hidle Htrig Hoff. pose proof Hidle as Hclosed.
  apply phase_idle_iff in Hclosed.
  destruct ev as [e r|s|s|ticketId newStatus r|ticketId|r| |docs|err];
    try discriminate Htrig;
    try (split; [|done]; apply phase_idle_iff; simpl; done).
  - split; [|done]. apply phase_idle_iff. simpl.
    pose proof (createTicket_keeps_modal e r st w) as H.
    destruct (Canvas.createTicket e r st w) as [[e' st'] w']. simpl in *. congruence.
  - split; [|done]. apply phase_idle_iff. simpl. unfold Canvas.updateTicketStatus.
    destruct (negb _); [done|].
    destruct (updateDoc _ _ r w) as [[?|?] w']; done.
  - unfold Canvas.offered in Hoff. rewrite Hclosed in Hoff. discriminate Hoff.
Qed.

Lemma run_idle_keeps_documents evs st w k :
  Canvas.phase st = Canvas.idle →
  forallb (λ ev, negb (Canvas.is_trigger ev)) evs = true →
  is_Some (collection w !! k) →
  is_Some (collection (Canvas.run evs (st, w)).2 !! k).
Proof.
  revert st w. induction evs as [|ev evs IH]; intros st w Hidle Hevs Hk;
    [done|].
  simpl in Hevs.
  apply andb_true_iff in Hevs as [Hev Hevs]. apply negb_true_iff in Hev.
  change (Canvas.run (ev :: evs) (st, w))
    with (Canvas.run evs (if Canvas.offered st ev
                          then Canvas.step ev (st, w) else (st, w))).
  destruct (Canvas.offered st ev) eqn:Hoff; [|by apply IH].
  destruct (step_stays_idle ev st w Hidle Hev Hoff) as [Hidle' Hnc].
  pose proof (step_keeps_documents ev (st, w) k Hnc Hk) as Hk'.
  destruct (Canvas.step ev (st, w)) as [st' w']. by apply IH.
Qed.

(** C5.  In the modal variant, from any state with [db] set: the delete
    trigger alone leaves the world untouched and moves to
    [pendingConfirmation id], where the dialog offers confirm and cancel;
    a confirm whose remote delete is fulfilled removes the document and
    returns to [idle]; a cancel returns to [idle] with the world untouched.
    [idle] is the state in which the dialog is not rendered: there neither
    confirm nor cancel is offered, and from there no run removes a document
    unless it contains a new trigger; nor does any run without a confirm.
    In src/src/App.jsx the same gate is the answer of [window.confirm]:
    declined, nothing happens; accepted and fulfilled, the document is
    removed. *)
Theorem delete_needs_confirmation (st : Canvas.AppState) (w : World) (id : DocId) :
  Canvas.db st = true → id ≠ [] →
  let s1 := Canvas.step (Canvas.ClickDelete id) (st, w) in
  (s1.2 = w ∧ Canvas.shared s1.1 = Canvas.shared st ∧
   Canvas.phase s1.1 = Canvas.pendingConfirmation (Some id) ∧
   (∀ r, Canvas.offered s1.1 (Canvas.ClickConfirm r) = true) ∧
   Canvas.offered s1.1 Canvas.ClickCancel = true) ∧
  (let s2 := Canvas.step (Canvas.ClickConfirm (Fulfilled tt)) s1 in
   collection s2.2 = delete id (collection w) ∧ Canvas.phase s2.1 = Canvas.idle) ∧
  (let s3 := Canvas.step Canvas.ClickCancel s1 in
   s3.2 = w ∧ Canvas.phase s3.1 = Canvas.idle) ∧
  (∀ st0 r, Canvas.phase st0 = Canvas.idle →
     Canvas.offered st0 (Canvas.ClickConfirm r) = false ∧
     Canvas.offered st0 Canvas.ClickCancel = false) ∧
  (∀ evs st0 w0 k, Canvas.phase st0 = Canvas.idle →
     forallb (λ ev, negb (Canvas.is_trigger ev)) evs = true →
     is_Some (collection w0 !! k) →
     is_Some (collection (Canvas.run evs (st0, w0)).2 !! k)) ∧
  (∀ evs s k, forallb (λ ev, negb (Canvas.is_confirm ev)) evs = true →
     is_Some (collection s.2 !! k) →
     is_Some (collection (Canvas.run evs s).2 !! k)) ∧
  (∀ vst r, Vercel.deleteTicket id false r vst w = (vst, w)) ∧
  (∀ vst, (Vercel.deleteTicket id true (Fulfilled tt) vst w).1 = vst ∧
          collection (Vercel.deleteTicket id true (Fulfilled tt) vst w).2
          = delete id (collection w)).
Proof.
  intros Hdb Hid. simpl.
  split; [done|]. split.
  { rewrite deleteTicket_pending with (id := id); done. }
  split; [done|]. split.
  { intros st0 r. unfold Canvas.phase, Canvas.offered.
    destruct (Canvas.ConfirmationModal _); done. }
  split; [apply run_idle_keeps_documents|].
  split; [apply run_keeps_documents|]. done.
Qed.

Lemma delete_needs_confirmation_witness :
  let s1 := Canvas.step (Canvas.ClickDelete (js "t1"))
              (Canvas.onCancel modal_open, one_ticket_world) in
  Canvas.phase (Canvas.onCancel modal_open) = Canvas.idle ∧
  s1.2 = one_ticket_world ∧
  collection (Canvas.step (Canvas.ClickConfirm (Fulfilled tt)) s1).2
  = delete (js "t1") (collection one_ticket_world).
Proof.
  pose proof (delete_needs_confirmation (Canvas.onCancel modal_open)
                one_ticket_world (js "t1") eq_refl
                ltac:(vm_compute; discriminate)) as H.
  simpl in H. destruct H as ((Hw & _) & (Hdel & _) & _).
  split; [reflexivity|]. split; [exact Hw | exact Hdel].
Defined.

(** ** Failures *)

(** C7 (amended).  When the provider rejects a create, a status update or
    a delete, the handler of src/src/App.jsx and the handler of the modal
    variant log one [console.error] entry carrying the error, have sent that
    one request and no other, and leave the collection alone; a subscription
    error is logged likewise, with no request.  The component state is
    returned unchanged (a failed create keeps [title] and [description]),
    with one exception: after a rejected delete the modal variant has closed
    the dialog and cleared the pending id, every other field being kept. *)
Theorem failure_is_logged_only (err : jsstring) (w : World) :
  let failed (req : list Request) (msg : string) :=
    {| collection := collection w;
       requests := requests w ++ req;
       console := console w ++ [{| message := msg; error := err |}] |} in
  (∀ e st u,
     trim (Vercel.title st) ≠ [] → trim (Vercel.description st) ≠ [] →
     Vercel.user st = Some u →
     Vercel.createTicket e (Rejected err) st w
     = (preventDefault e, st,
        failed [AddDocReq (Payload.mk (trim (Vercel.title st))
                             (trim (Vercel.description st)) (js "Open") (uid u)
                             serverTimestamp)]
               "Error creating document: "%string)) ∧
  (∀ id data st,
     Vercel.updateTicketStatus id data (Rejected err) st w
     = (st, failed [UpdateDocReq id data] "Error updating document: "%string)) ∧
  (∀ id st,
     Vercel.deleteTicket id true (Rejected err) st w
     = (st, failed [DeleteDocReq id] "Error deleting document: "%string)) ∧
  (∀ st,
     Vercel.onSnapshotError err st w
     = (st, failed [] "Error listening to tickets: "%string)) ∧
  (∀ e st u,
     trim (Canvas.title st) ≠ [] → trim (Canvas.description st) ≠ [] →
     Canvas.user st = Some u → Canvas.db st = true →
     Canvas.createTicket e (Rejected err) st w
     = (preventDefault e, st,
        failed [AddDocReq (Payload.mk (trim (Canvas.title st))
                             (trim (Canvas.description st)) (js "Open") (uid u)
                             serverTimestamp)]
               "Error creating document: "%string)) ∧
  (∀ id data st,
     Canvas.db st = true →
     Canvas.updateTicketStatus id data (Rejected err) st w
     = (st, failed [UpdateDocReq id data] "Error updating document: "%string)) ∧
  (∀ st,
     Canvas.onSnapshotError err st w
     = (st, failed [] "Error listening to tickets: "%string)) ∧
  (∀ id st,
     Canvas.db st = true → id ≠ [] → Canvas.ticketToDeleteId st = Some id →
     Canvas.deleteTicket (Rejected err) st w
     = ({| Canvas.tickets := Canvas.tickets st; Canvas.user := Canvas.user st;
           Canvas.title := Canvas.title st;
           Canvas.description := Canvas.description st;
           Canvas.loading := Canvas.loading st; Canvas.view := Canvas.view st;
           Canvas.db := Canvas.db st;
           Canvas.showConfirmModal := false; Canvas.ticketToDeleteId := None |},
        failed [DeleteDocReq id] "Error deleting document: "%string)).
Proof.
  simpl. split.
  { intros e st u Ht Hd Hu. by rewrite (createTicket_proceeds_Vercel _ _ _ _ u). }
  split; [done|]. split; [done|].
  split; [intros st; unfold Vercel.onSnapshotError, console_error;
          by rewrite app_nil_r|].
  split.
  { intros e st u Ht Hd Hu Hdb. unfold Canvas.createTicket.
    apply str_truthy_trim in Ht, Hd. rewrite Ht, Hd, Hu, Hdb. done. }
  split.
  { intros id data st Hdb. unfold Canvas.updateTicketStatus. by rewrite Hdb. }
  split; [intros st; unfold Canvas.onSnapshotError, console_error;
          by rewrite app_nil_r|].
  intros id st Hdb Hid Hpend. by rewrite deleteTicket_pending with (id := id).
Qed.

Lemma failure_is_logged_only_witness :
  ((Vercel.createTicket submit_event (Rejected (js "unavailable"))
      refund_form empty_world).1.2 = refund_form ∧
   logged_once empty_world
     (Vercel.createTicket submit_event (Rejected (js "unavailable"))
        refund_form empty_world).2 ∧
   requested_once empty_world
     (Vercel.createTicket submit_event (Rejected (js "unavailable"))
        refund_form empty_world).2) ∧
  ((Canvas.updateTicketStatus (js "t1") {| patch_status := js "Open" |}
      (Rejected (js "unavailable")) modal_open one_ticket_world).1 = modal_open ∧
   logged_once one_ticket_world
     (Canvas.updateTicketStatus (js "t1") {| patch_status := js "Open" |}
        (Rejected (js "unavailable")) modal_open one_ticket_world).2 ∧
   collection
     (Canvas.updateTicketStatus (js "t1") {| patch_status := js "Open" |}
        (Rejected (js "unavailable")) modal_open one_ticket_world).2
   = collection one_ticket_world).
Proof.
  split.
  - rewrite (proj1 (failure_is_logged_only (js "unavailable") empty_world)
               submit_event refund_form alice
               ltac:(vm_compute; discriminate) ltac:(vm_compute; discriminate)
               eq_refl).
    split; [reflexivity|]. split; eexists; reflexivity.
  - rewrite (proj1 (proj2 (proj2 (proj2 (proj2 (proj2
               (failure_is_logged_only (js "unavailable") one_ticket_world))))))
               (js "t1") {| patch_status := js "Open" |} modal_open eq_refl).
    split; [reflexivity|]. split; [eexists; reflexivity | reflexivity].
Defined.

(** C7, as stated, fails on the modal variant: a rejected delete changes the
    component state, closing the dialog and clearing the pending id. *)
Lemma failed_delete_closes_modal :
  Canvas.showConfirmModal modal_open = true ∧
  Canvas.ticketToDeleteId modal_open = Some (js "t1") ∧
  Canvas.showConfirmModal
    (Canvas.deleteTicket (Rejected (js "unavailable")) modal_open one_ticket_world).1
  = false ∧
  Canvas.ticketToDeleteId
    (Canvas.deleteTicket (Rejected (js "unavailable")) modal_open one_ticket_world).1
  = None ∧
  (Canvas.deleteTicket (Rejected (js "unavailable")) modal_open one_ticket_world).1
  ≠ modal_open.
Proof.
  repeat split; try reflexivity. intros H.
  apply (f_equal Canvas.showConfirmModal) in H. discriminate H.
Qed.

(** ** Creating *)

Lemma snapshot_after_insert (c : gmap (list N) Doc.t) q newId d docs :
  matches q d = true →
  snapshot_of q (<[newId := d]> c) docs →
  (newId, d) ∈ docs ∧
  (∀ kd, kd ∈ docs → kd = (newId, d) ∨ c !! kd.1 = Some kd.2).
Proof.
  unfold snapshot_of, query_result. intros Hm Hs. split.
  - rewrite Hs. apply elem_of_map_to_list. apply map_lookup_filter_Some.
    split; [apply lookup_insert_eq | done].
  - intros [k d'] Hin. rewrite Hs in Hin. apply elem_of_map_to_list in Hin.
    apply map_lookup_filter_Some in Hin as [Hl _].
    destruct (decide (newId = k)) as [->|Hne].
    + rewrite lookup_insert_eq in Hl. injection Hl as ->. by left.
    + rewrite lookup_insert_ne in Hl by done. by right.
Qed.

(** With [db] set, the modal variant's [createTicket] is that of
    src/src/App.jsx on the shared fields, and leaves the modal fields alone. *)
Lemma Canvas_createTicket_as_Vercel e r st w :
  Canvas.db st = true →
  (Canvas.createTicket e r st w).1.1 = (Vercel.createTicket e r (Canvas.shared st) w).1.1 ∧
  Canvas.shared (Canvas.createTicket e r st w).1.2
  = (Vercel.createTicket e r (Canvas.shared st) w).1.2 ∧
  (Canvas.createTicket e r st w).2 = (Vercel.createTicket e r (Canvas.shared st) w).2 ∧
  Canvas.showConfirmModal (Canvas.createTicket e r st w).1.2
  = Canvas.showConfirmModal st ∧
  Canvas.ticketToDeleteId (Canvas.createTicket e r st w).1.2
  = Canvas.ticketToDeleteId st.
Proof.
  intros Hdb. unfold Canvas.createTicket, Vercel.createTicket. simpl.
  rewrite Hdb. simpl. rewrite orb_false_r.
  destruct (_ || _); [done|]. destruct (Canvas.user st); [|done].
  destruct (addDoc _ r w) as [[?|?] w']; done.
Qed.

(** C8 (amended).  A create with a non-blank title and description and a
    user [u], fulfilled by the provider with id [newId] at server time
    [now], stores under [newId] a document with status 'Open', [userId]
    equal to [u]'s uid and [createdAt] equal to [now].  When [now] is later
    than every timestamp already in the collection, every 'My Tickets'
    snapshot of the new collection is displayed with that ticket first.  In
    a 'My Tickets' snapshot that shows the write while its timestamp is not
    yet resolved, the ticket is displayed after every ticket that has a
    positive timestamp. *)
Theorem created_ticket_open_owned_first (e : FormEvent) (st : Vercel.AppState)
    (w : World) (u : User) (newId : DocId) (now : Timestamp) :
  trim (Vercel.title st) ≠ [] → trim (Vercel.description st) ≠ [] →
  Vercel.user st = Some u →
  (∀ k d, collection w !! k = Some d → millis_or_0 (Doc.createdAt d) < toMillis now) →
  ∃ st' w' d,
    Vercel.createTicket e (Fulfilled (newId, now)) st w = (preventDefault e, st', w') ∧
    collection w' = <[newId := d]> (collection w) ∧
    Doc.status d = js "Open" ∧ Doc.userId d = uid u ∧ Doc.createdAt d = Some now ∧
    (∀ docs, snapshot_of (ticketsQuery MyTickets u) (collection w') docs →
       head (Vercel.tickets (Vercel.onSnapshot docs st'))
       = Some (ticket_of_doc (newId, d))) ∧
    (∀ docs,
       snapshot_of (ticketsQuery MyTickets u)
                   (<[newId := unresolved d]> (collection w)) docs →
       let shown := Vercel.tickets (Vercel.onSnapshot docs st) in
       ticket_of_doc (newId, unresolved d) ∈ shown ∧
       ∀ i j t, shown !! i = Some (ticket_of_doc (newId, unresolved d)) →
                shown !! j = Some t → 0 < sortKey t → (j < i)%nat).
Proof.
  intros Ht Hd Hu Hnew.
  rewrite (createTicket_proceeds_Vercel _ _ _ _ u) by done. simpl.
  eexists _, _, _. split; [reflexivity|]. simpl.
  split; [reflexivity|]. split; [done|]. split; [done|]. split; [done|].
  split.
  - intros docs Hs.
    apply snapshot_after_insert in Hs as [Hin Hothers];
      [|simpl; by apply bool_decide_eq_true].
    apply (js_sort_head_max sortKey byCreatedAtDesc byCreatedAtDesc_key).
    + apply list_elem_of_fmap. eexists. split; [reflexivity | exact Hin].
    + intros y Hy. apply list_elem_of_fmap in Hy as (kd & -> & Hkd).
      destruct (Hothers kd Hkd) as [->|Hold]; [by left|right].
      specialize (Hnew _ _ Hold). unfold sortKey. simpl.
      destruct (toMillis now =? 0) eqn:E; [apply Z.eqb_eq in E|]; lia.
  - intros docs Hs.
    apply snapshot_after_insert in Hs as [Hin _];
      [|simpl; by apply bool_decide_eq_true].
    destruct (sorted_tickets_displayed_order (map ticket_of_doc docs))
      as (Hp & _ & _ & _ & Hlast).
    split.
    + rewrite Hp. apply list_elem_of_fmap. eexists. split; [reflexivity | exact Hin].
    + intros i j t Hi Hj Hpos. by apply (Hlast i j _ t Hi Hj).
Qed.

Lemma created_ticket_open_owned_first_witness :
  ∃ st' w' d,
    Vercel.createTicket submit_event
      (Fulfilled (js "t4", {| toMillis := 1700000000900 |}))
      refund_form alice_bob_world = (preventDefault submit_event, st', w') ∧
    collection w' = <[js "t4" := d]> (collection alice_bob_world) ∧
    Doc.status d = js "Open" ∧ Doc.userId d = uid alice ∧
    Doc.createdAt d = Some {| toMillis := 1700000000900 |} ∧
    (∀ docs, snapshot_of (ticketsQuery MyTickets alice) (collection w') docs →
       head (Vercel.tickets (Vercel.onSnapshot docs st'))
       = Some (ticket_of_doc (js "t4", d))) ∧
    (∀ docs,
       snapshot_of (ticketsQuery MyTickets alice)
                   (<[js "t4" := unresolved d]> (collection alice_bob_world)) docs →
       let shown := Vercel.tickets (Vercel.onSnapshot docs refund_form) in
       ticket_of_doc (js "t4", unresolved d) ∈ shown ∧
       ∀ i j t, shown !! i = Some (ticket_of_doc (js "t4", unresolved d)) →
                shown !! j = Some t → 0 < sortKey t → (j < i)%nat).
Proof.
  apply (created_ticket_open_owned_first submit_event refund_form alice_bob_world
           alice (js "t4") {| toMillis := 1700000000900 |}).
  - vm_compute. discriminate.
  - vm_compute. discriminate.
  - reflexivity.
  - intros k d Hk. unfold alice_bob_world in Hk. simpl in Hk.
    apply lookup_insert_Some in Hk as [[_ <-]|[_ Hk]]; [simpl; lia|].
    apply lookup_singleton_Some in Hk as [_ <-]. simpl. lia.
Defined.

(** C8, as stated, fails while the write is pending: Alice's 'My Tickets'
    then holds her older ticket [t3] and the new ticket [t4] with [createdAt]
    still [null]; in whichever order the two are delivered, the older ticket
    is displayed first and the new one last. *)
Lemma new_ticket_last_while_pending :
  collection (Vercel.createTicket submit_event
                (Fulfilled (js "t4", {| toMillis := 1700000000900 |}))
                refund_form alice_bob_world).2 !! js "t4" = Some refund_doc ∧
  snapshot_of (ticketsQuery MyTickets alice)
              (<[js "t4" := unresolved refund_doc]> (collection alice_bob_world))
              [(js "t4", unresolved refund_doc); newer_doc] ∧
  Vercel.tickets (Vercel.onSnapshot [(js "t4", unresolved refund_doc); newer_doc]
                    refund_form)
  = [ticket_of_doc newer_doc; ticket_of_doc (js "t4", unresolved refund_doc)] ∧
  Vercel.tickets (Vercel.onSnapshot [newer_doc; (js "t4", unresolved refund_doc)]
                    refund_form)
  = [ticket_of_doc newer_doc; ticket_of_doc (js "t4", unresolved refund_doc)] ∧
  head (Vercel.tickets
          (Vercel.onSnapshot [(js "t4", unresolved refund_doc); newer_doc]
             refund_form))
  ≠ Some (ticket_of_doc (js "t4", unresolved refund_doc)).
Proof.
  split.
  { rewrite (createTicket_proceeds_Vercel _ _ _ _ alice);
      [|vm_compute; discriminate|vm_compute; discriminate|reflexivity].
    simpl. rewrite lookup_insert_eq. reflexivity. }
  split.
  { unfold snapshot_of, query_result, alice_bob_world. simpl.
    rewrite map_filter_insert_True by reflexivity.
    rewrite map_filter_insert_True by reflexivity.
    rewrite map_filter_singleton_False by (vm_compute; discriminate).
    rewrite map_to_list_insert by reflexivity.
    rewrite insert_empty, map_to_list_singleton. reflexivity. }
  split; [reflexivity|]. split; [reflexivity|].
  vm_compute. discriminate.
Qed.

(** C10.  A create that passes the guards sends a payload whose title and
    description are the trimmed form values: non-empty, with no code unit
    that [trim] strips at either end; fulfilled, the stored document carries
    them and the form fields are reset to the empty string. *)
Theorem stored_fields_trimmed (e : FormEvent) (st : Vercel.AppState) (w : World)
    (u : User) (newId : DocId) (now : Timestamp) :
  trim (Vercel.title st) ≠ [] → trim (Vercel.description st) ≠ [] →
  Vercel.user st = Some u →
  ∃ st' w' d,
    Vercel.createTicket e (Fulfilled (newId, now)) st w = (preventDefault e, st', w') ∧
    collection w' !! newId = Some d ∧
    Doc.title d = trim (Vercel.title st) ∧
    Doc.description d = trim (Vercel.description st) ∧
    Doc.title d ≠ [] ∧ Doc.description d ≠ [] ∧
    trimmed (Doc.title d) ∧ trimmed (Doc.description d) ∧
    Vercel.title st' = [] ∧ Vercel.description st' = [] ∧
    Vercel.tickets st' = Vercel.tickets st ∧ Vercel.user st' = Vercel.user st.
Proof.
  intros Ht Hd Hu.
  rewrite (createTicket_proceeds_Vercel _ _ _ _ u) by done. simpl.
  eexists _, _, _. split; [reflexivity|]. simpl.
  split; [apply lookup_insert_eq|]. simpl.
  repeat split; try done; apply trim_trimmed.
Qed.

Lemma stored_fields_trimmed_witness :
  ∃ st' w' d,
    Vercel.createTicket submit_event
      (Fulfilled (js "t2", {| toMillis := 1700000000001 |}))
      refund_form empty_world = (preventDefault submit_event, st', w') ∧
    collection w' !! js "t2" = Some d ∧
    Doc.title d = js "Refund for order #457" ∧
    Doc.description d = js "Double-charged" ∧
    Vercel.title st' = [] ∧ Vercel.description st' = [].
Proof.
  destruct (stored_fields_trimmed submit_event refund_form empty_world alice
              (js "t2") {| toMillis := 1700000000001 |}
              ltac:(vm_compute; discriminate) ltac:(vm_compute; discriminate)
              eq_refl)
    as (st' & w' & d & Hc & Hl & Ht & Hd & _ & _ & _ & _ & Hft & Hfd & _).
  exists st', w', d. rewrite Ht, Hd. repeat split; done.
Defined.


(** ** Binary64 arithmetic of the percentages

    The primitive operations are specified by [SpecFloat]; what follows
    bounds the rounding of [count / total] and of the product by 100. *)

Lemma digits2_pos_size m : digits2_pos m = Pos.size m.
Proof. induction m; simpl; congruence. Qed.

Lemma digits2_pos_bounds m :
  2 ^ (Z.pos (digits2_pos m) - 1) ≤ Z.pos m < 2 ^ Z.pos (digits2_pos m).
Proof.
  rewrite digits2_pos_size. split.
  - pose proof (Pos.size_le m) as H.
    assert (2 ^ Z.pos (Pos.size m) ≤ 2 * Z.pos m) as H'
      by (change 2 with (Z.pos 2) at 1; rewrite <- Pos2Z.inj_pow; exact H).
    replace (Z.pos (Pos.size m)) with (Z.succ (Z.pos (Pos.size m) - 1)) in H' by lia.
    rewrite Z.pow_succ_r in H' by lia. lia.
  - pose proof (Pos.size_gt m) as H.
    change 2 with (Z.pos 2). rewrite <- Pos2Z.inj_pow. exact H.
Qed.

Lemma digits2_pos_unique m k :
  2 ^ (k - 1) ≤ Z.pos m < 2 ^ k → Z.pos (digits2_pos m) = k.
Proof.
  intros [Hlo Hhi]. pose proof (digits2_pos_bounds m) as [Dlo Dhi].
  set (d := Z.pos (digits2_pos m)) in *.
  assert (0 < k).
  { destruct (Z.lt_trichotomy k 0) as [Hk|[->|Hk]]; [|simpl in Hhi; lia|done].
    rewrite Z.pow_neg_r in Hhi by done. lia. }
  destruct (Z.lt_trichotomy d k) as [Hlt|[Heq|Hgt]]; [|done|].
  - assert (2 ^ d ≤ 2 ^ (k - 1)) by (apply Z.pow_le_mono_r; lia). lia.
  - assert (2 ^ k ≤ 2 ^ (d - 1)) by (apply Z.pow_le_mono_r; lia). lia.
Qed.

Lemma shr_1_m x : 0 ≤ shr_m x → shr_m (shr_1 x) = shr_m x / 2.
Proof.
  destruct x as [m r s]. simpl. intros Hm.
  destruct m as [|p|p]; [done| |lia].
  destruct p as [p|p|]; simpl.
  - rewrite (Pos2Z.inj_xI p). apply Z.div_unique with 1; lia.
  - rewrite (Pos2Z.inj_xO p). apply Z.div_unique with 0; lia.
  - done.
Qed.

Lemma iter_shr_1_m p x :
  0 ≤ shr_m x → shr_m (SpecFloat.iter_pos shr_1 p x) = shr_m x / 2 ^ Z.pos p.
Proof.
  revert x. induction p as [p IH|p IH|]; intros x Hx; simpl.
  - assert (0 ≤ shr_m (shr_1 x)) as H1
      by (rewrite shr_1_m by done; apply Z.div_pos; lia).
    assert (0 ≤ shr_m (SpecFloat.iter_pos shr_1 p (shr_1 x))) as H2
      by (rewrite IH by done; apply Z.div_pos; lia).
    rewrite IH, IH, shr_1_m by done.
    rewrite !Z.div_div by lia.
    f_equal. rewrite (Pos2Z.inj_xI p).
    replace (2 * Z.pos p + 1) with (1 + Z.pos p + Z.pos p) by lia.
    rewrite !Z.pow_add_r by lia. lia.
  - assert (0 ≤ shr_m (SpecFloat.iter_pos shr_1 p x)) as H2
      by (rewrite IH by done; apply Z.div_pos; lia).
    rewrite IH, IH by done.
    rewrite !Z.div_div by lia.
    f_equal. rewrite (Pos2Z.inj_xO p).
    replace (2 * Z.pos p) with (Z.pos p + Z.pos p) by lia.
    rewrite !Z.pow_add_r by lia. lia.
  - by apply shr_1_m.
Qed.

Lemma shr_m_of_loc m l : shr_m (shr_record_of_loc m l) = m.
Proof. by destruct l as [|[]]. Qed.

Lemma round_nearest_even_bounds m l : m ≤ round_nearest_even m l ≤ m + 1.
Proof.
  unfold round_nearest_even. destruct l as [|[]]; try destruct (Z.even m); lia.
Qed.

Lemma round_nearest_even_exact m : round_nearest_even m loc_Exact = m.
Proof. done. Qed.

Lemma Zdigits2_bounds m :
  0 < m → 2 ^ (Zdigits2 m - 1) ≤ m < 2 ^ Zdigits2 m.
Proof. destruct m as [|p|p]; try lia. intros _. apply digits2_pos_bounds. Qed.

Lemma Zdigits2_unique m k : 2 ^ (k - 1) ≤ m < 2 ^ k → 0 < m → Zdigits2 m = k.
Proof.
  destruct m as [|p|p]; try lia. intros H _. by apply digits2_pos_unique.
Qed.

Lemma shr_fexp_m m e l :
  0 < m →
  let n := Z.max 0 (fexp prec emax (Zdigits2 m + e) - e) in
  shr_m (shr_fexp prec emax m e l).1 = m / 2 ^ n ∧
  (shr_fexp prec emax m e l).2 = e + n.
Proof.
  intros Hm. unfold shr_fexp, shr.
  destruct (fexp prec emax (Zdigits2 m + e) - e) as [|p|p] eqn:E; simpl.
  - rewrite shr_m_of_loc, Z.div_1_r. split; [done|lia].
  - rewrite iter_shr_1_m by (rewrite shr_m_of_loc; lia).
    by rewrite shr_m_of_loc.
  - rewrite shr_m_of_loc, Z.div_1_r. split; [done|lia].
Qed.

Lemma fexp_normal t : -1074 ≤ t - 53 → fexp prec emax t = t - 53.
Proof. unfold fexp, SpecFloat.emin, prec, emax. lia. Qed.

(** Rounding a mantissa of 53 or more digits: the result is finite, its
    exponent is the one that leaves 53 digits (or one more after a carry),
    and its mantissa is the truncated one or its successor. *)
Lemma binary_round_aux_bounds sx mx ex lx :
  let d := Z.pos (digits2_pos mx) in
  53 ≤ d → -1074 ≤ ex + (d - 53) → ex + (d - 53) + 1 ≤ 971 →
  ∃ m e k,
    binary_round_aux prec emax sx (Z.pos mx) ex lx = S754_finite sx m e ∧
    (k = 0 ∨ k = 1) ∧ e = ex + (d - 53) + k ∧
    (Z.pos m * 2 ^ k = Z.pos mx / 2 ^ (d - 53)
     ∨ Z.pos m * 2 ^ k = Z.pos mx / 2 ^ (d - 53) + 1) ∧
    Z.pos (digits2_pos m) = 53.
Proof.
  intros d Hd Hlo Hhi.
  pose proof (digits2_pos_bounds mx) as [Dlo Dhi]. fold d in Dlo, Dhi.
  unfold binary_round_aux.
  pose proof (shr_fexp_m (Z.pos mx) ex lx ltac:(lia)) as [Hm1 He1].
  destruct (shr_fexp prec emax (Z.pos mx) ex lx) as [mrs1 e1]. simpl in Hm1, He1.
  fold d in Hm1, He1.
  rewrite fexp_normal in Hm1, He1 by lia.
  replace (Z.max 0 (d + ex - 53 - ex)) with (d - 53) in Hm1, He1 by lia.
  (* the truncated mantissa has 53 digits *)
  assert (2 ^ 52 ≤ Z.pos mx / 2 ^ (d - 53) < 2 ^ 53) as Hq.
  { assert (0 < 2 ^ (d - 53)) by (apply Z.pow_pos_nonneg; lia).
    split.
    - apply Z.div_le_lower_bound; [lia|].
      rewrite <- Z.pow_add_r by lia. by replace (d - 53 + 52) with (d - 1) by lia.
    - apply Z.div_lt_upper_bound; [lia|].
      rewrite <- Z.pow_add_r by lia. by replace (d - 53 + 53) with d by lia. }
  set (mt := Z.pos mx / 2 ^ (d - 53)) in *.
  pose proof (round_nearest_even_bounds (shr_m mrs1) (loc_of_shr_record mrs1)) as Hr.
  set (mr := round_nearest_even (shr_m mrs1) (loc_of_shr_record mrs1)) in *.
  rewrite Hm1 in Hr.
  pose proof (shr_fexp_m mr e1 loc_Exact ltac:(lia)) as [Hm2 He2].
  destruct (shr_fexp prec emax mr e1 loc_Exact) as [mrs2 e2]. simpl in Hm2, He2.
  destruct (decide (mr < 2 ^ 53)) as [Hsmall|Hcarry].
  - (* no carry *)
    rewrite (Zdigits2_unique mr 53) in Hm2, He2 by lia.
    rewrite fexp_normal in Hm2, He2 by lia.
    replace (Z.max 0 (53 + e1 - 53 - e1)) with 0 in Hm2, He2 by lia.
    rewrite Z.div_1_r in Hm2. rewrite Hm2.
    destruct mr as [|p|p] eqn:Emr; try lia.
    exists p, e2, 0. replace (e2 <=? emax - prec) with true
      by (symmetry; apply Z.leb_le; unfold emax, prec; lia).
    split; [done|]. split; [by left|]. split; [lia|]. split.
    + rewrite Z.mul_1_r. lia.
    + apply digits2_pos_unique. lia.
  - (* the rounding carried into the next binade *)
    assert (mr = 2 ^ 53) as Emr by lia.
    rewrite (Zdigits2_unique mr 54) in Hm2, He2 by (rewrite Emr; simpl; lia).
    rewrite fexp_normal in Hm2, He2 by lia.
    replace (Z.max 0 (54 + e1 - 53 - e1)) with 1 in Hm2, He2 by lia.
    rewrite Emr in Hm2. change (2 ^ 53 / 2 ^ 1) with (Z.pos (2 ^ 52)) in Hm2.
    rewrite Hm2.
    exists (2 ^ 52)%positive, e2, 1. replace (e2 <=? emax - prec) with true
      by (symmetry; apply Z.leb_le; unfold emax, prec; lia).
    split; [done|]. split; [by right|]. split; [lia|]. split.
    + right. change (Z.pos (2 ^ 52) * 2 ^ 1) with (2 ^ 53). lia.
    + done.
Qed.

(** A 53-digit mantissa in range is stored as it is. *)
Lemma binary_round_aux_exact sx m e :
  Z.pos (digits2_pos m) = 53 → -1074 ≤ e ≤ 971 →
  binary_round_aux prec emax sx (Z.pos m) e loc_Exact = S754_finite sx m e.
Proof.
  intros Hd He. unfold binary_round_aux, shr_fexp. simpl Zdigits2. rewrite Hd.
  rewrite fexp_normal by lia.
  replace (53 + e - 53 - e) with 0 by lia. simpl.
  rewrite Hd. rewrite fexp_normal by lia.
  replace (53 + e - 53 - e) with 0 by lia. simpl.
  replace (e <=? emax - prec) with true
    by (symmetry; apply Z.leb_le; unfold emax, prec; lia).
  done.
Qed.

Lemma Pos_iter_xO_Z p k : Z.pos (Pos.iter xO p k) = Z.pos p * 2 ^ Z.pos k.
Proof.
  induction k as [|k IH] using Pos.peano_ind.
  - simpl. lia.
  - rewrite Pos.iter_succ, Pos2Z.inj_xO, IH, Pos2Z.inj_succ, Z.pow_succ_r by lia.
    lia.
Qed.

Lemma shl_align_spec p e e' :
  e' ≤ e →
  (shl_align p e e').2 = e' ∧ Z.pos (shl_align p e e').1 = Z.pos p * 2 ^ (e - e').
Proof.
  intros He. unfold shl_align. destruct (e' - e) as [|k|k] eqn:E; simpl; try lia.
  - replace (e - e') with 0 by lia. lia.
  - rewrite Pos_iter_xO_Z. replace (e - e') with (Z.pos k) by lia. done.
Qed.

(** Integers below 2^53 are represented exactly. *)
Lemma number_of_nat_exact (n : nat) :
  (0 < n)%nat → Z.of_nat n < 2 ^ 53 →
  ∃ m e, Prim2SF (number_of_nat n) = S754_finite false m e ∧
         Z.pos (digits2_pos m) = 53 ∧ -52 ≤ e ≤ 0 ∧
         Z.pos m = Z.of_nat n * 2 ^ (- e).
Proof.
  intros Hpos Hlt. unfold number_of_nat. rewrite of_uint63_spec.
  rewrite Uint63.of_Z_spec. rewrite Z.mod_small
    by (split; [lia|]; eapply Z.lt_trans; [exact Hlt|done]).
  destruct (Z.of_nat n) as [|p|p] eqn:En; try lia. simpl binary_normalize.
  unfold binary_round.
  pose proof (digits2_pos_bounds p) as [Dlo Dhi].
  set (d := Z.pos (digits2_pos p)) in *.
  assert (1 ≤ d ≤ 53) as Hd.
  { split; [unfold d; lia|].
    destruct (decide (d ≤ 53)); [done|].
    assert (2 ^ 53 ≤ 2 ^ (d - 1)) by (apply Z.pow_le_mono_r; lia). lia. }
  rewrite fexp_normal by lia.
  pose proof (shl_align_spec p 0 (d + 0 - 53) ltac:(lia)) as [He Hm].
  destruct (shl_align p 0 (d + 0 - 53)) as [mz ez]. simpl in He, Hm. subst ez.
  replace (0 - (d + 0 - 53)) with (53 - d) in Hm by lia.
  assert (Z.pos (digits2_pos mz) = 53) as Hdz.
  { apply digits2_pos_unique. rewrite Hm. split.
    - replace (53 - 1) with ((d - 1) + (53 - d)) by lia.
      rewrite Z.pow_add_r by lia. apply Z.mul_le_mono_nonneg_r; [|done].
      apply Z.pow_nonneg; lia.
    - replace 53 with (d + (53 - d)) at 2 by lia.
      rewrite Z.pow_add_r by lia. apply Z.mul_lt_mono_pos_r; [|done].
      apply Z.pow_pos_nonneg; lia. }
  rewrite binary_round_aux_exact by (done || lia).
  exists mz, (d + 0 - 53). split; [done|]. split; [done|]. split; [lia|].
  rewrite Hm. f_equal. f_equal. lia.
Qed.

Lemma number_of_nat_zero : Prim2SF (number_of_nat 0) = S754_zero false.
Proof. reflexivity. Qed.

(** A 53-digit mantissa that is the truncation of a value at most 2^c, or
    its successor (halved after a carry), has exponent at most -52. *)
Lemma exponent_lower_bound (m mt c k : Z) :
  2 ^ (53 - 1) ≤ m < 2 ^ 53 → k = 0 ∨ k = 1 → 0 ≤ c →
  m * 2 ^ k = mt ∨ m * 2 ^ k = mt + 1 → mt ≤ 2 ^ c →
  52 + k ≤ c.
Proof.
  intros Bm Hk Hc Hm Hmt.
  destruct (decide (52 + k ≤ c)); [done|exfalso].
  assert (2 ^ c ≤ 2 ^ (51 + k)) by (apply Z.pow_le_mono_r; lia).
  assert (2 ^ (51 + k) = 2 ^ 51 * 2 ^ k) as E51 by (apply Z.pow_add_r; lia).
  change (2 ^ (53 - 1)) with (2 * 2 ^ 51) in Bm.
  assert (1 < 2 ^ 51) as H51 by done.
  set (p51 := 2 ^ 51) in *. clearbody p51.
  destruct Hk as [-> | ->];
    [change (2 ^ 0) with 1 in * | change (2 ^ 1) with 2 in *]; lia.
Qed.

(** A mantissa that is the floor of o * 2^c / N or its successor, at
    exponent -c (or half of it at exponent -c + 1), is within one unit in
    the last place of o / N. *)
Lemma bracket_error (N o m mt c k : Z) :
  0 < N → 1 ≤ c → k = 0 ∨ k = 1 →
  N * mt ≤ o * 2 ^ c < N * (mt + 1) →
  m * 2 ^ k = mt ∨ m * 2 ^ k = mt + 1 →
  Z.abs (m * N - o * 2 ^ (c - k)) ≤ N.
Proof.
  intros HN Hc Hk Hbr Hm.
  destruct Hk as [-> | ->].
  - rewrite Z.mul_1_r in Hm. replace (c - 0) with c by lia.
    set (X := o * 2 ^ c) in *. clearbody X.
    destruct Hm as [-> | ->]; lia.
  - replace c with (Z.succ (c - 1)) in Hbr by lia.
    rewrite Z.pow_succ_r in Hbr by lia.
    change (2 ^ 1) with 2 in Hm.
    set (Y := o * 2 ^ (c - 1)).
    replace (o * (2 * 2 ^ (c - 1))) with (2 * Y) in Hbr by (unfold Y; ring).
    clearbody Y.
    destruct Hm as [<- | Hm]; [lia|].
    replace mt with (m * 2 - 1) in Hbr by lia. lia.
Qed.

Lemma SFdiv_core_binary_53 ma ea mb eb :
  Z.pos (digits2_pos ma) = 53 → Z.pos (digits2_pos mb) = 53 →
  -1074 ≤ ea - eb - 53 →
  ∃ l, SFdiv_core_binary prec emax (Z.pos ma) ea (Z.pos mb) eb
       = (Z.pos ma * 2 ^ 53 / Z.pos mb, ea - eb - 53, l).
Proof.
  intros Ha Hb He. unfold SFdiv_core_binary. simpl Zdigits2. rewrite Ha, Hb.
  rewrite fexp_normal by lia.
  replace (Z.min (53 + ea - (53 + eb) - 53) (ea - eb)) with (ea - eb - 53) by lia.
  replace (ea - eb - (ea - eb - 53)) with 53 by lia.
  cbv beta iota zeta.
  rewrite Z.shiftl_mul_pow2 by lia.
  unfold Z.div.
  destruct (Z.div_eucl (Z.pos ma * 2 ^ 53) (Z.pos mb)) as [q r].
  by eexists.
Qed.

(** The quotient of two counts: one unit in the last place from o / N. *)
Lemma quotient_bounds (o N : nat) :
  (0 < o ≤ N)%nat → Z.of_nat N < 2 ^ 53 →
  ∃ m e, Prim2SF (number_of_nat o / number_of_nat N) = S754_finite false m e ∧
         Z.pos (digits2_pos m) = 53 ∧ 52 ≤ - e ≤ 105 ∧
         Z.abs (Z.pos m * Z.of_nat N - Z.of_nat o * 2 ^ (- e)) ≤ Z.of_nat N.
Proof.
  intros Ho HN.
  destruct (number_of_nat_exact o) as (ma & ea & Ea & Da & Hea & Hma); [lia|lia|].
  destruct (number_of_nat_exact N) as (mb & eb & Eb & Db & Heb & Hmb); [lia|lia|].
  rewrite FloatAxioms.div_spec, Ea, Eb. unfold SF64div, SFdiv.
  destruct (SFdiv_core_binary_53 ma ea mb eb Da Db ltac:(lia)) as [l ->].
  pose proof (digits2_pos_bounds ma) as Ba. rewrite Da in Ba.
  pose proof (digits2_pos_bounds mb) as Bb. rewrite Db in Bb.
  set (q := Z.pos ma * 2 ^ 53 / Z.pos mb).
  assert (2 ^ 52 ≤ q < 2 ^ 54) as Hq.
  { unfold q. split.
    - apply Z.div_le_lower_bound; [lia|]. nia.
    - apply Z.div_lt_upper_bound; [lia|]. nia. }
  destruct q as [|qp|qp] eqn:Eq; try lia.
  pose proof (digits2_pos_bounds qp) as Bq.
  set (d := Z.pos (digits2_pos qp)) in *.
  assert (d = 53 ∨ d = 54) as Hd.
  { destruct (Z.lt_trichotomy d 53) as [H|[H|H]]; [|by left|].
    - assert (2 ^ d ≤ 2 ^ 52) by (apply Z.pow_le_mono_r; lia). lia.
    - destruct (decide (d = 54)); [by right|].
      assert (2 ^ 54 ≤ 2 ^ (d - 1)) by (apply Z.pow_le_mono_r; lia). lia. }
  destruct (binary_round_aux_bounds (xorb false false) qp (ea - eb - 53) l)
    as (m & e & k & -> & Hk & He & Hm & Dm); fold d; [lia|lia|lia|].
  fold d in He, Hm.
  exists m, e. split; [done|]. split; [done|].
  (* the truncated mantissa is the floor of o * 2^c / N *)
  set (a := - ea) in *. set (b := - eb) in *. set (h := d - 53) in *.
  set (c := a + 53 - b - h).
  assert (0 ≤ c) by lia.
  assert (Z.pos qp / 2 ^ h = Z.of_nat o * 2 ^ c / Z.of_nat N) as Hmt.
  { rewrite <- Eq. unfold q. rewrite Z.div_div by (try apply Z.pow_pos_nonneg; lia).
    rewrite Hma, Hmb.
    replace (Z.of_nat o * 2 ^ a * 2 ^ 53)
      with (Z.of_nat o * 2 ^ c * (2 ^ b * 2 ^ h)).
    2:{ rewrite <- !Z.mul_assoc, <- !Z.pow_add_r by lia.
        f_equal. f_equal. lia. }
    rewrite <- (Z.mul_assoc (Z.of_nat N)).
    apply Z.div_mul_cancel_r; [lia|].
    assert (0 < 2 ^ b * 2 ^ h) by (apply Z.mul_pos_pos; apply Z.pow_pos_nonneg; lia).
    lia. }
  rewrite Hmt in Hm.
  set (mt := Z.of_nat o * 2 ^ c / Z.of_nat N) in *.
  assert (Z.of_nat N * mt ≤ Z.of_nat o * 2 ^ c < Z.of_nat N * (mt + 1)) as Hbr.
  { split.
    - apply Z.mul_div_le. lia.
    - replace (Z.of_nat N * (mt + 1)) with (Z.of_nat N * mt + Z.of_nat N) by lia.
      pose proof (Z.mod_pos_bound (Z.of_nat o * 2 ^ c) (Z.of_nat N) ltac:(lia))
        as Hmod.
      pose proof (Z.div_mod (Z.of_nat o * 2 ^ c) (Z.of_nat N) ltac:(lia)) as Hdm.
      fold mt in Hdm. lia. }
  assert (0 < 2 ^ c) by (apply Z.pow_pos_nonneg; lia).
  assert (mt ≤ 2 ^ c) as Hmt_le.
  { apply (proj2 (Z.mul_le_mono_pos_l mt (2 ^ c) (Z.of_nat N) ltac:(lia))).
    eapply Z.le_trans; [apply Hbr|].
    apply Z.mul_le_mono_nonneg_r; lia. }
  pose proof (digits2_pos_bounds m) as Bm. rewrite Dm in Bm.
  assert (52 + k ≤ c) as Hc
    by (apply (exponent_lower_bound (Z.pos m) mt); try done; lia).
  split; [lia|].
  replace (- e) with (c - k) by lia.
  apply (bracket_error (Z.of_nat N) (Z.of_nat o) (Z.pos m) mt c k);
    try done; lia.
Qed.

(** Rounding the product by 100: from one unit in the last place on the
    quotient to 2^-44 on the percentage. *)
Lemma product_error_arith (N o m m2 c1 j k2 : Z) :
  0 < N → 0 ≤ o → 52 ≤ c1 →
  Z.abs (m * N - o * 2 ^ c1) ≤ N →
  j = 6 ∨ j = 7 → k2 = 0 ∨ k2 = 1 →
  m2 * 2 ^ k2 = 100 * m / 2 ^ j ∨ m2 * 2 ^ k2 = 100 * m / 2 ^ j + 1 →
  2 ^ 44 * Z.abs (m2 * N - 100 * o * 2 ^ (c1 - j - k2)) ≤ 2 ^ (c1 - j - k2) * N.
Proof.
  intros HN Ho Hc1 Herr Hj Hk Hm2.
  set (X := 2 ^ (c1 - j - k2)).
  assert (0 < X) as HX by (apply Z.pow_pos_nonneg; lia).
  assert (2 ^ c1 = 2 ^ j * 2 ^ k2 * X) as Hpow.
  { unfold X. rewrite <- !Z.pow_add_r by lia. f_equal. lia. }
  assert (2 ^ 52 ≤ 2 ^ c1) as Hbig by (apply Z.pow_le_mono_r; lia).
  pose proof (Z.div_mod (100 * m) (2 ^ j) ltac:(lia)) as Hdm.
  pose proof (Z.mod_pos_bound (100 * m) (2 ^ j) ltac:(lia)) as Hmod.
  set (g := 100 * m / 2 ^ j) in *. set (rho := (100 * m) mod 2 ^ j) in *.
  rewrite Hpow in Herr, Hbig.
  (* the products that occur, as atoms *)
  set (A1 := m2 * N). set (A2 := o * X). set (A3 := m * N).
  set (A4 := X * N). set (G := g * N). set (R := rho * N).
  assert (100 * A3 = 2 ^ j * G + R) as Hb
    by (unfold A3, G, R; replace (100 * (m * N)) with (100 * m * N) by ring;
        rewrite Hdm at 1; ring).
  assert (0 ≤ R < 2 ^ j * N) as HR by (unfold R; nia).
  assert (2 ^ 52 * N ≤ 2 ^ j * 2 ^ k2 * A4) as Hd
    by (unfold A4; rewrite Z.mul_assoc; apply Z.mul_le_mono_nonneg_r; lia).
  assert (2 ^ k2 * A1 = G ∨ 2 ^ k2 * A1 = G + N) as Hc.
  { unfold A1, G. destruct Hm2 as [<-|E]; [left; ring|right].
    replace (g * N + N) with ((g + 1) * N) by ring. rewrite <- E. ring. }
  replace (o * (2 ^ j * 2 ^ k2 * X)) with (2 ^ j * 2 ^ k2 * A2) in Herr
    by (unfold A2; ring).
  replace (100 * o * X) with (100 * A2) by (unfold A2; ring).
  fold A3 in Herr. fold A1. replace (X * N) with A4 by done.
  clearbody A1 A2 A3 A4 G R. clear Hdm Hmod Hpow.
  destruct Hj as [-> | ->], Hk as [-> | ->];
    change (2 ^ 6) with 64 in *; change (2 ^ 7) with 128 in *;
    change (2 ^ 0) with 1 in *; change (2 ^ 1) with 2 in *;
    change (2 ^ 52) with 4503599627370496 in *;
    change (2 ^ 44) with 17592186044416; lia.
Qed.

(** The nearest tenth of a value that is within 2^-44 of 100 * o / N is a
    nearest tenth of 100 * o / N itself, when N is below 2^32. *)
Lemma nearest_tenths_arith (N o m2 c2 : Z) :
  0 < N < 2 ^ 32 → 0 ≤ o → 0 ≤ c2 → 0 ≤ m2 →
  2 ^ 44 * Z.abs (m2 * N - 100 * o * 2 ^ c2) ≤ 2 ^ c2 * N →
  let n := (20 * m2 + 2 ^ c2) / 2 ^ (1 + c2) in
  0 ≤ n ∧ 2 * Z.abs (n * N - 1000 * o) ≤ N.
Proof.
  intros HN Ho Hc Hm Herr n.
  set (P := 2 ^ c2) in *.
  assert (0 < P) as HP by (apply Z.pow_pos_nonneg; lia).
  assert (2 ^ (1 + c2) = 2 * P) as Hpow
    by (unfold P; rewrite Z.pow_add_r by lia; done).
  unfold n. rewrite Hpow.
  pose proof (Z.div_mod (20 * m2 + P) (2 * P) ltac:(lia)) as Hdm.
  pose proof (Z.mod_pos_bound (20 * m2 + P) (2 * P) ltac:(lia)) as Hmod.
  set (q := (20 * m2 + P) / (2 * P)) in *.
  set (rho := (20 * m2 + P) mod (2 * P)) in *.
  assert (0 ≤ q) as Hq by (apply Z.div_pos; lia).
  split; [done|].
  set (D := m2 * N - 100 * o * P) in *.
  assert (20 * Z.abs D < P) as HD.
  { assert (P * N < P * 2 ^ 32) by (apply Z.mul_lt_mono_pos_l; lia).
    change (2 ^ 44) with (2 ^ 12 * 2 ^ 32) in Herr.
    assert (2 ^ 12 * Z.abs D < P) by nia.
    change (2 ^ 12) with 4096 in *. lia. }
  (* P * (2 * (1000 o - q N) + N) = rho * N - 20 D *)
  assert (P * (2 * (1000 * o - q * N) + N) = rho * N - 20 * D) as Hkey.
  { unfold D. 
    replace (rho * N) with ((20 * m2 + P - 2 * P * q) * N) by (rewrite Hdm at 1; ring).
    ring. }
  assert (0 ≤ rho * N < 2 * P * N) as HrN by nia.
  set (T := 2 * (1000 * o - q * N) + N) in *.
  assert (- P < P * T < 2 * P * N + P) as HT by lia.
  assert (0 ≤ T ≤ 2 * N) as HTb by nia.
  lia.
Qed.

Lemma hundred_spec :
  Prim2SF 100%float = S754_finite false 7036874417766400 (-46).
Proof. reflexivity. Qed.

(** The percentage before formatting: within 2^-44 of 100 * o / N. *)
Lemma product_bounds (o N : nat) :
  (0 < o ≤ N)%nat → Z.of_nat N < 2 ^ 53 →
  ∃ m e, Prim2SF ((number_of_nat o / number_of_nat N) * 100)%float
         = S754_finite false m e ∧
         Z.pos (digits2_pos m) = 53 ∧ 44 ≤ - e ∧
         2 ^ 44 * Z.abs (Z.pos m * Z.of_nat N - 100 * Z.of_nat o * 2 ^ (- e))
         ≤ 2 ^ (- e) * Z.of_nat N.
Proof.
  intros Ho HN.
  destruct (quotient_bounds o N Ho HN) as (m & e & Eq & Dm & He & Herr).
  rewrite FloatAxioms.mul_spec, Eq, hundred_spec. unfold SF64mul, SFmul.
  pose proof (digits2_pos_bounds m) as Bm. rewrite Dm in Bm.
  change (2 ^ (53 - 1)) with (2 ^ 52) in Bm.
  set (P := (m * 7036874417766400)%positive).
  assert (Z.pos P = Z.pos m * (100 * 2 ^ 46)) as HP by done.
  assert (2 ^ 104 ≤ Z.pos P < 2 ^ 106) as BP.
  { rewrite HP. change (2 ^ 104) with (2 ^ 52 * (64 * 2 ^ 46)).
    change (2 ^ 106) with (2 ^ 53 * (128 * 2 ^ 46)).
    assert (0 < 2 ^ 46) by done. nia. }
  pose proof (digits2_pos_bounds P) as DP.
  set (d := Z.pos (digits2_pos P)) in *.
  assert (d = 105 ∨ d = 106) as Hd.
  { destruct (Z.lt_trichotomy d 105) as [H|[H|H]]; [|by left|].
    - assert (2 ^ d ≤ 2 ^ 104) by (apply Z.pow_le_mono_r; lia). lia.
    - destruct (decide (d = 106)); [by right|].
      assert (2 ^ 106 ≤ 2 ^ (d - 1)) by (apply Z.pow_le_mono_r; lia). lia. }
  destruct (binary_round_aux_bounds (xorb false false) P (e + -46) loc_Exact)
    as (m2 & e2 & k2 & -> & Hk2 & He2 & Hm2 & Dm2); fold d; [lia|lia|lia|].
  fold d in He2, Hm2.
  exists m2, e2. split; [done|]. split; [done|].
  set (j := d - 53 - 46) in *.
  assert (j = 6 ∨ j = 7) as Hj by lia.
  assert (Z.pos P / 2 ^ (d - 53) = 100 * Z.pos m / 2 ^ j) as Hg.
  { rewrite HP. replace (d - 53) with (j + 46) by lia.
    rewrite Z.pow_add_r by lia.
    replace (Z.pos m * (100 * 2 ^ 46)) with (100 * Z.pos m * 2 ^ 46) by ring.
    apply Z.div_mul_cancel_r; [|done].
    apply Z.pow_nonzero; lia. }
  rewrite Hg in Hm2.
  replace (- e2) with (- e - j - k2) by lia.
  split; [lia|].
  apply (product_error_arith (Z.of_nat N) (Z.of_nat o) (Z.pos m) (Z.pos m2));
    try done; lia.
Qed.

Lemma tenths_at_most_1000 (n N o : Z) :
  0 < N → 0 ≤ o ≤ N → 2 * Z.abs (n * N - 1000 * o) ≤ N → n ≤ 1000.
Proof. intros HN Ho Hn. nia. Qed.

(** The printed decimal reads back as the integer it was printed from. *)
Lemma decimal_tenths_fixed1 n :
  0 ≤ n ≤ 1000 → decimal_tenths (fixed1_digits n) = Some n.
Proof.
  intros Hn.
  assert (forallb (λ k, bool_decide (decimal_tenths (fixed1_digits (Z.of_nat k))
                                     = Some (Z.of_nat k))) (seq 0 1001) = true)
    as Hall by (vm_compute; reflexivity).
  rewrite forallb_forall in Hall.
  specialize (Hall (Z.to_nat n)). rewrite Z2Nat.id in Hall by lia.
  eapply bool_decide_eq_true_1, Hall, in_seq. lia.
Qed.

(** Every percentage of a count in a list of fewer than 2^32 tickets is a
    nearest tenth of the exact share. *)
Lemma percent_nearest (Number_toString : float → jsstring) (count total : nat) :
  (count ≤ total)%nat → (0 < total)%nat → Z.of_nat total < 2 ^ 32 →
  nearest_tenth_of_share (percent Number_toString count total) count total.
Proof.
  intros Hle Hpos Hlt. unfold percent.
  replace (0 <? total)%nat with true by (symmetry; apply Nat.ltb_lt; lia).
  assert (Z.of_nat total < 2 ^ 53) as Hlt53
    by (eapply Z.lt_trans; [exact Hlt|done]).
  destruct count as [|c].
  - destruct (number_of_nat_exact total Hpos Hlt53) as (mb & eb & Eb & _).
    exists (fixed1_digits 0), 0.
    split; [|split; [done|split; [done|simpl; lia]]]. f_equal. unfold toFixed1.
    rewrite FloatAxioms.mul_spec, FloatAxioms.div_spec, Eb, hundred_spec.
    change (Prim2SF (number_of_nat 0)) with (S754_zero false). done.
  - destruct (product_bounds (S c) total ltac:(lia) Hlt53)
      as (m & e & Ex & Dm & He & Herr).
    pose proof (digits2_pos_bounds m) as Bm. rewrite Dm in Bm.
    pose proof (nearest_tenths_arith (Z.of_nat total) (Z.of_nat (S c)) (Z.pos m)
                  (- e) ltac:(lia) ltac:(lia) ltac:(lia) ltac:(lia) Herr)
      as [Hn0 Hn].
    set (n := (20 * Z.pos m + 2 ^ (- e)) / 2 ^ (1 + - e)) in *.
    assert (n ≤ 1000) as Hn1000
      by (eapply tenths_at_most_1000; [| |exact Hn]; lia).
    exists (fixed1_digits n), n.
    split; [|split; [done|split; [by apply decimal_tenths_fixed1|done]]].
    + f_equal. unfold toFixed1. rewrite Ex.
      unfold at_least_1e21, nearest_tenths.
      replace (0 <=? e) with false by (symmetry; apply Z.leb_gt; lia).
      assert (0 < 2 ^ (- e)) by (apply Z.pow_pos_nonneg; lia).
      replace (10 ^ 21 * 2 ^ (- e) <=? Z.pos m) with false.
      2:{ symmetry. apply Z.leb_gt.
          assert (2 ^ 53 < 10 ^ 21) by done.
          assert (10 ^ 21 * 1 ≤ 10 ^ 21 * 2 ^ (- e))
            by (apply Z.mul_le_mono_nonneg_l; [done|lia]).
          lia. }
      simpl app. unfold n. repeat f_equal; lia.
Qed.

Lemma filter_length_le {A} (f : A → bool) (l : list A) :
  (length (List.filter f l) ≤ length l)%nat.
Proof. induction l as [|x l IH]; simpl; [done|]. destruct (f x); simpl; lia. Qed.

(** C4 (amended).  For every list of N tickets, 0 < N < 2^32 (the bound of
    an array length), each percentage is the string of a decimal with one
    fraction digit that is a nearest tenth of count / N × 100: it differs
    from the exact share by at most 0.05.  (When the exact share lies midway
    between two tenths, either neighbour can be the result.)  The three need
    not sum to 100.0: for one ticket of each status they are 33.3 each. *)
Theorem percentages_are_nearest_tenths (Number_toString : float → jsstring)
    (tickets : list Ticket.t) :
  (0 < length tickets)%nat → Z.of_nat (length tickets) < 2 ^ 32 →
  let s := stats Number_toString tickets in
  nearest_tenth_of_share (openPercent s) (open s) (total s) ∧
  nearest_tenth_of_share (inProgressPercent s) (inProgress s) (total s) ∧
  nearest_tenth_of_share (resolvedPercent s) (resolved s) (total s) ∧
  (let s3 := stats Number_toString three_tickets in
   (open s3 + inProgress s3 + resolved s3 = total s3)%nat ∧
   openPercent s3 = JsString (fixed1_digits 333) ∧
   inProgressPercent s3 = JsString (fixed1_digits 333) ∧
   resolvedPercent s3 = JsString (fixed1_digits 333) ∧
   fixed1_digits 333 = js "33.3" ∧ 333 + 333 + 333 ≠ 1000).
Proof.
  intros Hpos Hlt. simpl.
  repeat split; try (apply percent_nearest; try done; apply filter_length_le).
  all: try reflexivity. lia.
Qed.

Lemma percentages_are_nearest_tenths_witness :
  let s := stats no_toString three_tickets in
  nearest_tenth_of_share (openPercent s) 1 3 ∧
  nearest_tenth_of_share (inProgressPercent s) 1 3 ∧
  nearest_tenth_of_share (resolvedPercent s) 1 3.
Proof.
  pose proof (percentages_are_nearest_tenths no_toString three_tickets
                ltac:(simpl; lia) ltac:(simpl; lia)) as (Ho & Hp & Hr & _).
  repeat split; assumption.
Defined.

(** C4, as stated, fails at a tie: of 80 tickets with 23 open, the share is
    exactly 28.75, which rounds to 28.8 (ties upwards or to even), while the
    code yields "28.7": the quotient is computed in binary64, where
    23 / 80 * 100 falls just below 28.75. *)
Lemma open_percent_23_of_80 :
  open (stats no_toString eighty_tickets) = 23%nat ∧
  total (stats no_toString eighty_tickets) = 80%nat ∧
  openPercent (stats no_toString eighty_tickets) = JsString (js "28.7") ∧
  half_up_tenths 23 80 = 288 ∧ half_even_tenths 23 80 = 288 ∧
  fixed1_digits 288 = js "28.8" ∧
  openPercent (stats no_toString eighty_tickets)
  ≠ JsString (fixed1_digits (half_up_tenths 23 80)).
Proof.
  repeat split; try (vm_compute; reflexivity).
  vm_compute. discriminate.
Qed.

(** * Further properties of the handlers *)

(** ** Creating, again *)

Lemma trim_decompose s :
  ∃ p q, s = p ++ trim s ++ q ∧ whitespace_only p ∧ whitespace_only q.
Proof.
  destruct (trimStart_suffix s) as (p & Hp & Hwp).
  destruct (trimEnd_prefix (trimStart s)) as (q & Hq & Hwq).
  exists p, q. unfold trim. by rewrite <- Hq.
Qed.

(** X1.  The stored title and description are the typed ones with only
    leading and trailing whitespace removed: what is typed between the first
    and the last non-blank character is stored as it is. *)
Theorem stored_fields_keep_inner_text (e : FormEvent) (st : Vercel.AppState)
    (w : World) (u : User) (newId : DocId) (now : Timestamp) :
  trim (Vercel.title st) ≠ [] → trim (Vercel.description st) ≠ [] →
  Vercel.user st = Some u →
  ∃ d p q p' q',
    collection (Vercel.createTicket e (Fulfilled (newId, now)) st w).2 !! newId
    = Some d ∧
    Vercel.title st = p ++ Doc.title d ++ q ∧
    whitespace_only p ∧ whitespace_only q ∧
    Vercel.description st = p' ++ Doc.description d ++ q' ∧
    whitespace_only p' ∧ whitespace_only q'.
Proof.
  intros Ht Hd Hu.
  rewrite (createTicket_proceeds_Vercel _ _ _ _ u) by done. simpl.
  destruct (trim_decompose (Vercel.title st)) as (p & q & E & Hp & Hq).
  destruct (trim_decompose (Vercel.description st)) as (p' & q' & E' & Hp' & Hq').
  eexists _, p, q, p', q'. split; [apply lookup_insert_eq|]. simpl. done.
Qed.

Lemma stored_fields_keep_inner_text_witness :
  ∃ d p q p' q',
    collection (Vercel.createTicket submit_event
                  (Fulfilled (js "t2", {| toMillis := 5 |}))
                  refund_form empty_world).2 !! js "t2" = Some d ∧
    Vercel.title refund_form = p ++ Doc.title d ++ q ∧
    whitespace_only p ∧ whitespace_only q ∧
    Vercel.description refund_form = p' ++ Doc.description d ++ q' ∧
    whitespace_only p' ∧ whitespace_only q'.
Proof.
  apply (stored_fields_keep_inner_text submit_event refund_form empty_world alice).
  - vm_compute. discriminate.
  - vm_compute. discriminate.
  - reflexivity.
Defined.

(** X2.  Once a create has been fulfilled the form is blank, so a second
    submit without typing anew is rejected by the guard: no second request,
    no second document, whatever the provider would have answered. *)
Theorem second_submit_is_rejected (e e2 : FormEvent) (r2 : Settled (DocId * Timestamp))
    (st : Vercel.AppState) (w : World) (u : User) (newId : DocId) (now : Timestamp) :
  trim (Vercel.title st) ≠ [] → trim (Vercel.description st) ≠ [] →
  Vercel.user st = Some u →
  let '(_, st1, w1) := Vercel.createTicket e (Fulfilled (newId, now)) st w in
  Vercel.createTicket e2 r2 st1 w1 = (preventDefault e2, st1, w1).
Proof.
  intros Ht Hd Hu.
  rewrite (createTicket_proceeds_Vercel _ _ _ _ u) by done. simpl.
  apply createTicket_guard_Vercel. left. constructor.
Qed.

Lemma second_submit_is_rejected_witness :
  let '(_, st1, w1) :=
    Vercel.createTicket submit_event (Fulfilled (js "t2", {| toMillis := 5 |}))
                        refund_form empty_world in
  Vercel.createTicket submit_event (Fulfilled (js "t3", {| toMillis := 6 |})) st1 w1
  = (preventDefault submit_event, st1, w1).
Proof.
  apply (second_submit_is_rejected submit_event submit_event
           (Fulfilled (js "t3", {| toMillis := 6 |})) refund_form empty_world alice
           (js "t2") {| toMillis := 5 |}).
  - vm_compute. discriminate.
  - vm_compute. discriminate.
  - reflexivity.
Defined.

(** X3.  A rejected create keeps the form, so submitting again sends the
    same payload; when that retry is fulfilled, the collection and the
    component state are the ones a first-time success would have left, the
    only traces of the failure being its request and its log entry. *)
Theorem retry_after_failed_create (e e2 : FormEvent) (err : jsstring)
    (st : Vercel.AppState) (w : World) (u : User) (newId : DocId) (now : Timestamp) :
  trim (Vercel.title st) ≠ [] → trim (Vercel.description st) ≠ [] →
  Vercel.user st = Some u →
  let '(_, st1, w1) := Vercel.createTicket e (Rejected err) st w in
  let '(_, st2, w2) := Vercel.createTicket e2 (Fulfilled (newId, now)) st1 w1 in
  let '(_, st', w') := Vercel.createTicket e (Fulfilled (newId, now)) st w in
  st2 = st' ∧ collection w2 = collection w' ∧
  (∃ p, requests w' = requests w ++ [AddDocReq p] ∧
        requests w2 = requests w ++ [AddDocReq p; AddDocReq p]) ∧
  console w' = console w ∧
  console w2 = console w
    ++ [{| message := "Error creating document: "; error := err |}].
Proof.
  intros Ht Hd Hu.
  rewrite !(createTicket_proceeds_Vercel _ _ _ _ u) by done. simpl.
  rewrite (createTicket_proceeds_Vercel _ _ _ _ u) by done. simpl.
  repeat split; try done.
  eexists. split; [done|]. by rewrite <- app_assoc.
Qed.

Lemma retry_after_failed_create_witness :
  let '(_, st1, w1) :=
    Vercel.createTicket submit_event (Rejected (js "unavailable"))
                        refund_form empty_world in
  let '(_, st2, w2) :=
    Vercel.createTicket submit_event (Fulfilled (js "t2", {| toMillis := 5 |}))
                        st1 w1 in
  let '(_, st', w') :=
    Vercel.createTicket submit_event (Fulfilled (js "t2", {| toMillis := 5 |}))
                        refund_form empty_world in
  st2 = st' ∧ collection w2 = collection w' ∧
  (∃ p, requests w' = requests empty_world ++ [AddDocReq p] ∧
        requests w2 = requests empty_world ++ [AddDocReq p; AddDocReq p]) ∧
  console w' = console empty_world ∧
  console w2 = console empty_world
    ++ [{| message := "Error creating document: "; error := js "unavailable" |}].
Proof.
  apply (retry_after_failed_create submit_event submit_event (js "unavailable")
           refund_form empty_world alice (js "t2") {| toMillis := 5 |}).
  - vm_compute. discriminate.
  - vm_compute. discriminate.
  - reflexivity.
Defined.

(** ** Updating and deleting *)

Lemma updateDoc_collection id data r w :
  collection (updateDoc id data r w).2
  = match r with
    | Fulfilled _ => alter (apply_patch data) id (collection w)
    | Rejected _ => collection w
    end.
Proof. by destruct r. Qed.

Lemma updateTicketStatus_collection id data r st w :
  collection (Vercel.updateTicketStatus id data r st w).2
  = collection (updateDoc id data r w).2.
Proof.
  unfold Vercel.updateTicketStatus.
  destruct (updateDoc id data r w) as [[?|?] w'] eqn:E; done.
Qed.

(** X4.  A status update, fulfilled or rejected, never creates or removes a
    document, leaves every other document as it was, and on the addressed
    document changes at most the status: title, description, owner and
    creation time are kept.  Addressed to an id that is not in the
    collection, it changes nothing. *)
Theorem status_update_changes_only_status (id : DocId) (data : Patch)
    (r : Settled unit) (st : Vercel.AppState) (w : World) :
  let w' := (Vercel.updateTicketStatus id data r st w).2 in
  dom (collection w') = dom (collection w) ∧
  (∀ k, k ≠ id → collection w' !! k = collection w !! k) ∧
  (∀ d', collection w' !! id = Some d' →
     ∃ d, collection w !! id = Some d ∧
          Doc.title d' = Doc.title d ∧ Doc.description d' = Doc.description d ∧
          Doc.userId d' = Doc.userId d ∧ Doc.createdAt d' = Doc.createdAt d ∧
          (Doc.status d' = Doc.status d ∨ Doc.status d' = patch_status data)) ∧
  (collection w !! id = None → collection w' = collection w).
Proof.
  simpl. rewrite updateTicketStatus_collection, updateDoc_collection.
  destruct r as [[]|err].
  - split; [apply dom_alter_L|]. split; [intros k Hk; by apply lookup_alter_ne|].
    split.
    + intros d'. rewrite lookup_alter_eq.
      destruct (collection w !! id) as [d|]; [|done].
      intros [= <-]. exists d. simpl. repeat split; try done. by right.
    + intros Hnone. apply map_eq. intros k.
      destruct (decide (id = k)) as [<-|Hne].
      * by rewrite lookup_alter_eq, Hnone.
      * by rewrite lookup_alter_ne.
  - repeat split; try done. intros d' Hd'. exists d'. repeat split; try done.
    by left.
Qed.

Lemma alter_apply_patch_twice (c : gmap (list N) Doc.t) id data1 data2 :
  alter (apply_patch data2) id (alter (apply_patch data1) id c)
  = alter (apply_patch data2) id c.
Proof.
  apply map_eq. intros k. destruct (decide (id = k)) as [<-|Hne].
  - rewrite !lookup_alter_eq. by destruct (c !! id).
  - by rewrite !lookup_alter_ne.
Qed.

Lemma alter_apply_patch_commute (c : gmap (list N) Doc.t) id1 id2 data1 data2 :
  id1 ≠ id2 →
  alter (apply_patch data2) id2 (alter (apply_patch data1) id1 c)
  = alter (apply_patch data1) id1 (alter (apply_patch data2) id2 c).
Proof.
  intros Hne. apply map_eq. intros k.
  destruct (decide (id1 = k)) as [E1|H1].
  - subst k. rewrite (lookup_alter_ne _ _ id2 id1) by done.
    rewrite !lookup_alter_eq. by rewrite lookup_alter_ne.
  - destruct (decide (id2 = k)) as [E2|H2].
    + subst k. rewrite (lookup_alter_ne _ (alter _ _ _) id1 id2) by done.
      rewrite !lookup_alter_eq. by rewrite lookup_alter_ne.
    + by rewrite !lookup_alter_ne.
Qed.

(** X5.  Fulfilled status updates compose as last-write-wins: two updates
    of one ticket leave the collection that the second alone would have
    left (so repeating an update changes nothing further), and updates of
    two different tickets leave the same collection in either order. *)
Theorem status_updates_compose (id1 id2 : DocId) (data1 data2 : Patch)
    (st : Vercel.AppState) (w : World) :
  let after id data s := Vercel.updateTicketStatus id data (Fulfilled tt) s.1 s.2 in
  collection (after id1 data2 (after id1 data1 (st, w))).2
  = collection (after id1 data2 (st, w)).2 ∧
  (id1 ≠ id2 →
   collection (after id2 data2 (after id1 data1 (st, w))).2
   = collection (after id1 data1 (after id2 data2 (st, w))).2).
Proof.
  simpl. split.
  - apply alter_apply_patch_twice.
  - apply alter_apply_patch_commute.
Qed.

(** X6.  Creating a ticket under a fresh id and then deleting it (confirmed
    and fulfilled) gives back the collection as it was before the create. *)
Theorem create_then_delete_restores (e : FormEvent) (st : Vercel.AppState)
    (w : World) (u : User) (newId : DocId) (now : Timestamp) :
  trim (Vercel.title st) ≠ [] → trim (Vercel.description st) ≠ [] →
  Vercel.user st = Some u → collection w !! newId = None →
  let '(_, st1, w1) := Vercel.createTicket e (Fulfilled (newId, now)) st w in
  is_Some (collection w1 !! newId) ∧
  collection (Vercel.deleteTicket newId true (Fulfilled tt) st1 w1).2 = collection w.
Proof.
  intros Ht Hd Hu Hfresh.
  rewrite (createTicket_proceeds_Vercel _ _ _ _ u) by done. simpl.
  split; [rewrite lookup_insert_eq; by eexists|].
  by apply delete_insert_id.
Qed.

Lemma create_then_delete_restores_witness :
  let '(_, st1, w1) :=
    Vercel.createTicket submit_event (Fulfilled (js "t2", {| toMillis := 5 |}))
                        refund_form one_ticket_world in
  is_Some (collection w1 !! js "t2") ∧
  collection (Vercel.deleteTicket (js "t2") true (Fulfilled tt) st1 w1).2
  = collection one_ticket_world.
Proof.
  apply (create_then_delete_restores submit_event refund_form one_ticket_world alice
           (js "t2") {| toMillis := 5 |}).
  - vm_compute. discriminate.
  - vm_compute. discriminate.
  - reflexivity.
  - unfold one_ticket_world. simpl. apply lookup_singleton_ne.
    vm_compute. discriminate.
Defined.

(** X7.  A confirmed, fulfilled delete removes the addressed document and
    no other; of an id that is not in the collection it changes nothing, so
    deleting twice is deleting once; declined, or rejected by the provider,
    it leaves the collection as it was. *)
Theorem delete_removes_exactly_one (id : DocId) (st : Vercel.AppState) (w : World) :
  let w' := (Vercel.deleteTicket id true (Fulfilled tt) st w).2 in
  collection w' !! id = None ∧
  (∀ k, k ≠ id → collection w' !! k = collection w !! k) ∧
  dom (collection w') = dom (collection w) ∖ {[ id ]} ∧
  (collection w !! id = None → collection w' = collection w) ∧
  collection (Vercel.deleteTicket id true (Fulfilled tt) st w').2 = collection w' ∧
  (∀ r, collection (Vercel.deleteTicket id false r st w).2 = collection w) ∧
  (∀ err, collection (Vercel.deleteTicket id true (Rejected err) st w).2
          = collection w).
Proof.
  simpl. split; [apply lookup_delete_eq|].
  split; [intros k Hk; by apply lookup_delete_ne|].
  split; [apply dom_delete_L|]. split; [apply delete_id|].
  split; [apply delete_delete_eq|]. done.
Qed.

(** X8.  In the modal variant a confirm deletes the ticket of the most
    recent trigger and no other: after a trigger for [id1], a second trigger
    for [id2] (directly, or after a cancel) and a fulfilled confirm, exactly
    [id2] is gone, and the dialog is closed. *)
Theorem latest_trigger_is_deleted (st : Canvas.AppState) (w : World) (id1 id2 : DocId) :
  Canvas.db st = true → id2 ≠ [] →
  let s1 := Canvas.step (Canvas.ClickDelete id1) (st, w) in
  let direct := Canvas.step (Canvas.ClickConfirm (Fulfilled tt))
                  (Canvas.step (Canvas.ClickDelete id2) s1) in
  let cancelled := Canvas.step (Canvas.ClickConfirm (Fulfilled tt))
                     (Canvas.step (Canvas.ClickDelete id2)
                        (Canvas.step Canvas.ClickCancel s1)) in
  collection direct.2 = delete id2 (collection w) ∧
  collection cancelled.2 = delete id2 (collection w) ∧
  (id1 ≠ id2 → collection direct.2 !! id1 = collection w !! id1) ∧
  Canvas.phase direct.1 = Canvas.idle ∧ Canvas.phase cancelled.1 = Canvas.idle ∧
  Canvas.ticketToDeleteId direct.1 = None.
Proof.
  intros Hdb Hid. simpl.
  rewrite !deleteTicket_pending with (id := id2) by done. simpl.
  repeat split; try done. intros Hne. by apply lookup_delete_ne.
Qed.

Lemma latest_trigger_is_deleted_witness :
  let s1 := Canvas.step (Canvas.ClickDelete (js "t9")) (modal_open, one_ticket_world) in
  let direct := Canvas.step (Canvas.ClickConfirm (Fulfilled tt))
                  (Canvas.step (Canvas.ClickDelete (js "t1")) s1) in
  collection direct.2 = delete (js "t1") (collection one_ticket_world) ∧
  Canvas.phase direct.1 = Canvas.idle.
Proof.
  pose proof (latest_trigger_is_deleted modal_open one_ticket_world (js "t9") (js "t1")
                eq_refl ltac:(vm_compute; discriminate)) as H.
  simpl in H. destruct H as (Hd & _ & _ & Hi & _).
  split; [exact Hd | exact Hi].
Defined.

Lemma run_cons (ev : Canvas.UIEvent) (evs : list Canvas.UIEvent)
    (st : Canvas.AppState) (w : World) :
  Canvas.run (ev :: evs) (st, w)
  = Canvas.run evs (if Canvas.offered st ev then Canvas.step ev (st, w) else (st, w)).
Proof. reflexivity. Qed.

Lemma step_pending_id ev st w id :
  Canvas.ticketToDeleteId (Canvas.step ev (st, w)).1 = Some id →
  Canvas.ticketToDeleteId st = Some id ∨ ev = Canvas.ClickDelete id.
Proof.
  destruct ev as [e r|s|s|i n r|i|r| |docs|err]; simpl; auto.
  - unfold Canvas.createTicket. destruct (_ || _); [simpl; auto|].
    destruct (Canvas.user st); [|simpl; auto].
    destruct (addDoc _ r w) as [[?|?] w']; simpl; auto.
  - unfold Canvas.updateTicketStatus. destruct (negb _); [simpl; auto|].
    destruct (updateDoc _ _ r w) as [[?|?] w']; simpl; auto.
  - intros [= ->]. by right.
  - unfold Canvas.deleteTicket. destruct (_ || _); [simpl; auto|].
    destruct (Canvas.ticketToDeleteId st) eqn:Epend; [|simpl; intros; congruence].
    destruct (deleteDoc _ r w) as [[?|?] w']; simpl; discriminate.
Qed.

Lemma step_open_has_id ev st w :
  (Canvas.showConfirmModal st = true → is_Some (Canvas.ticketToDeleteId st)) →
  Canvas.showConfirmModal (Canvas.step ev (st, w)).1 = true →
  is_Some (Canvas.ticketToDeleteId (Canvas.step ev (st, w)).1).
Proof.
  intros Hinv.
  destruct ev as [e r|s|s|i n r|i|r| |docs|err]; simpl; auto.
  - unfold Canvas.createTicket. destruct (_ || _); [simpl; auto|].
    destruct (Canvas.user st); [|simpl; auto].
    destruct (addDoc _ r w) as [[?|?] w']; simpl; auto.
  - unfold Canvas.updateTicketStatus. destruct (negb _); [simpl; auto|].
    destruct (updateDoc _ _ r w) as [[?|?] w']; simpl; auto.
  - unfold Canvas.deleteTicket. destruct (_ || _); [simpl; auto|].
    destruct (Canvas.ticketToDeleteId st) eqn:Epend;
      [|simpl; rewrite Epend; auto].
    destruct (deleteDoc _ r w) as [[?|?] w']; simpl; discriminate.
  - discriminate.
Qed.

(** X9.  In the modal variant the confirmation dialog is never open without
    a pending id: from a state in which an open dialog has one (the first
    render, where it is closed), after any sequence of events an open dialog
    has a pending id, and it is the id of a trash-button click of that
    sequence, or the one that was pending at the start. *)
Theorem open_dialog_has_pending_id (evs : list Canvas.UIEvent)
    (st : Canvas.AppState) (w : World) :
  (Canvas.showConfirmModal st = true → is_Some (Canvas.ticketToDeleteId st)) →
  Canvas.showConfirmModal (Canvas.run evs (st, w)).1 = true →
  ∃ id, Canvas.ticketToDeleteId (Canvas.run evs (st, w)).1 = Some id ∧
        (Canvas.ticketToDeleteId st = Some id ∨ Canvas.ClickDelete id ∈ evs).
Proof.
  revert st w. induction evs as [|ev evs IH]; intros st w Hinv Hshow.
  { simpl in *. destruct (Hinv Hshow) as [id Hid]. exists id. auto. }
  rewrite run_cons in Hshow |- *. destruct (Canvas.offered st ev).
  - pose proof (step_open_has_id ev st w Hinv) as Hinv1.
    pose proof (λ id, step_pending_id ev st w id) as Hid1.
    destruct (Canvas.step ev (st, w)) as [st1 w1]. simpl in Hinv1, Hid1.
    destruct (IH st1 w1 Hinv1 Hshow) as (id & H1 & [H2|H2]).
    + exists id. split; [done|].
      destruct (Hid1 id H2) as [?| ->]; [by left|right; left].
    + exists id. split; [done|]. right. by right.
  - destruct (IH st w Hinv Hshow) as (id & H1 & [H2|H2]).
    + exists id. auto.
    + exists id. split; [done|]. right. by right.
Qed.

Lemma open_dialog_has_pending_id_witness :
  ∃ id,
    Canvas.ticketToDeleteId
      (Canvas.run [Canvas.TypeTitle (js "Refund"); Canvas.ClickDelete (js "t1")]
         (modal_closed, one_ticket_world)).1 = Some id ∧
    (Canvas.ticketToDeleteId modal_closed = Some id ∨
     Canvas.ClickDelete id
     ∈ [Canvas.TypeTitle (js "Refund"); Canvas.ClickDelete (js "t1")]).
Proof.
  apply (open_dialog_has_pending_id
           [Canvas.TypeTitle (js "Refund"); Canvas.ClickDelete (js "t1")]
           modal_closed one_ticket_world).
  - intros H. discriminate H.
  - reflexivity.
Defined.

(** ** What is on display *)

Lemma snapshot_elem q c docs kd :
  snapshot_of q c docs → kd ∈ docs → c !! kd.1 = Some kd.2 ∧ matches q kd.2 = true.
Proof.
  unfold snapshot_of, query_result. intros Hs Hin. rewrite Hs in Hin.
  destruct kd as [k d]. apply elem_of_map_to_list in Hin.
  by apply map_lookup_filter_Some in Hin.
Qed.

Lemma snapshot_ids_NoDup q c docs : snapshot_of q c docs → NoDup (docs.*1).
Proof.
  intros Hs. unfold snapshot_of in Hs. rewrite Hs. apply NoDup_fst_map_to_list.
Qed.

Lemma snapshot_length q c docs :
  snapshot_of q c docs → length docs = size (query_result q c).
Proof.
  intros Hs. unfold snapshot_of in Hs. rewrite Hs. apply length_map_to_list.
Qed.

Lemma ticket_ids_of_docs (docs : list (DocId * Doc.t)) :
  map Ticket.id (map ticket_of_doc docs) = docs.*1.
Proof. induction docs as [|kd docs IH]; simpl; [done|]. by rewrite IH. Qed.

Lemma sorted_tickets_perm (docs : list (DocId * Doc.t)) :
  js_sort byCreatedAtDesc (map ticket_of_doc docs) ≡ₚ map ticket_of_doc docs.
Proof. apply js_sort_perm. Qed.

(** X10.  In 'My Tickets' every ticket a snapshot puts on display belongs to
    the current user, so every card carries the delete button (and the
    status control). *)
Theorem my_tickets_are_all_deletable (st : Vercel.AppState) (u : User) (q : Query)
    (c : gmap (list N) Doc.t) (docs : list (DocId * Doc.t)) :
  Vercel.user st = Some u → Vercel.view st = MyTickets →
  VercelApp.dataListener st = Some q → snapshot_of q c docs →
  let st' := Vercel.onSnapshot docs st in
  Forall (λ t, Ticket.userId t = uid u) (Vercel.tickets st') ∧
  Forall (λ card, deleteButton card = true ∧ statusControl card = true)
         (Vercel.renderTicketView st').
Proof.
  intros Hu Hv Hq Hs. unfold VercelApp.dataListener in Hq.
  rewrite Hu, Hv in Hq. injection Hq as <-. simpl.
  assert (Forall (λ t, Ticket.userId t = uid u)
            (js_sort byCreatedAtDesc (map ticket_of_doc docs))) as Hown.
  { rewrite sorted_tickets_perm. apply Forall_forall. intros t Ht.
    apply list_elem_of_fmap in Ht as (kd & -> & Hkd).
    destruct (snapshot_elem _ _ _ _ Hs Hkd) as [_ Hm]. simpl in Hm.
    by apply bool_decide_eq_true in Hm. }
  split; [exact Hown|]. unfold Vercel.renderTicketView. simpl. rewrite Hu.
  apply Forall_fmap. eapply Forall_impl; [exact Hown|].
  intros t Ht. simpl. split; [|done]. by apply bool_decide_eq_true.
Qed.

Lemma my_tickets_are_all_deletable_witness :
  let st' := Vercel.onSnapshot [pending_doc] refund_form in
  Forall (λ t, Ticket.userId t = uid alice) (Vercel.tickets st') ∧
  Forall (λ card, deleteButton card = true ∧ statusControl card = true)
         (Vercel.renderTicketView st').
Proof.
  apply (my_tickets_are_all_deletable refund_form alice (WhereUserId (uid alice))
           (collection two_ticket_world) [pending_doc]); try reflexivity.
  unfold snapshot_of, query_result, two_ticket_world. simpl.
  rewrite map_filter_insert_True by reflexivity.
  rewrite map_filter_singleton_False by (vm_compute; discriminate).
  rewrite insert_empty, map_to_list_singleton. reflexivity.
Defined.

Lemma query_whole_collection (c : gmap (list N) Doc.t) :
  query_result WholeCollection c = c.
Proof. unfold query_result. by apply map_filter_id. Qed.

(** X11.  For every snapshot of a query, in every variant, the handler
    neither drops nor duplicates a document: the ids on display (the React
    keys of the cards) are the document ids of the snapshot rearranged, and
    in the same order in the variant that does not sort; so they are pairwise
    distinct, and there are as many tickets as documents matched by the
    query. *)
Theorem displayed_ids_are_distinct (q : Query) (c : gmap (list N) Doc.t)
    (docs : list (DocId * Doc.t)) :
  snapshot_of q c docs →
  (∀ st,
     let ids := map card_ticket (Vercel.renderTicketView (Vercel.onSnapshot docs st)) in
     ids ≡ₚ docs.*1 ∧ NoDup ids ∧
     length (Vercel.tickets (Vercel.onSnapshot docs st)) = size (query_result q c)) ∧
  (∀ st,
     let ids := map card_ticket (Canvas.renderTicketView (Canvas.onSnapshot docs st)) in
     ids ≡ₚ docs.*1 ∧ NoDup ids ∧
     length (Canvas.tickets (Canvas.onSnapshot docs st)) = size (query_result q c)) ∧
  (∀ st,
     let ids := map Ticket.id (Netlify.tickets (Netlify.onSnapshot docs st)) in
     ids = docs.*1 ∧ NoDup ids ∧
     length (Netlify.tickets (Netlify.onSnapshot docs st)) = size (query_result q c)).
Proof.
  intros Hs.
  assert (map Ticket.id (js_sort byCreatedAtDesc (map ticket_of_doc docs)) ≡ₚ docs.*1)
    as Hp by (by rewrite sorted_tickets_perm, ticket_ids_of_docs).
  assert (NoDup (map Ticket.id (js_sort byCreatedAtDesc (map ticket_of_doc docs))))
    as Hnd by (rewrite Hp; by eapply snapshot_ids_NoDup).
  assert (length (js_sort byCreatedAtDesc (map ticket_of_doc docs))
          = size (query_result q c)) as Hlen.
  { rewrite sorted_tickets_perm, length_map. by apply snapshot_length. }
  split; [|split]; intros st; simpl.
  - unfold Vercel.renderTicketView. simpl. rewrite <- list_fmap_compose. done.
  - unfold Canvas.renderTicketView. simpl. rewrite <- list_fmap_compose. done.
  - rewrite ticket_ids_of_docs, length_map.
    split; [done|]. split; [by eapply snapshot_ids_NoDup | by apply snapshot_length].
Qed.

Lemma displayed_ids_are_distinct_witness :
  let ids := map card_ticket
               (Vercel.renderTicketView
                  (Vercel.onSnapshot [pending_doc; older_doc] refund_form)) in
  ids ≡ₚ [pending_doc; older_doc].*1 ∧ NoDup ids ∧
  length (Vercel.tickets (Vercel.onSnapshot [pending_doc; older_doc] refund_form))
  = size (query_result WholeCollection (collection two_ticket_world)).
Proof.
  refine (proj1 (displayed_ids_are_distinct WholeCollection
                   (collection two_ticket_world) [pending_doc; older_doc] _)
            refund_form).
  unfold snapshot_of, two_ticket_world. simpl.
  rewrite query_whole_collection.
  rewrite map_to_list_insert by reflexivity.
  rewrite map_to_list_singleton. reflexivity.
Defined.

Lemma step_keeps_tickets ev st w :
  (∀ docs, ev ≠ Canvas.Snapshot docs) →
  Canvas.tickets (Canvas.step ev (st, w)).1 = Canvas.tickets st.
Proof.
  intros Hev. destruct ev as [e r|s|s|ticketId newStatus r|ticketId|r| |docs|err];
    simpl; try done.
  - unfold Canvas.createTicket. destruct (_ || _); [done|].
    destruct (Canvas.user st); [|done].
    destruct (addDoc _ r w) as [[?|?] w']; done.
  - unfold Canvas.updateTicketStatus. destruct (negb _); [done|].
    destruct (updateDoc _ _ r w) as [[?|?] w']; done.
  - unfold Canvas.deleteTicket. destruct (_ || _); [done|].
    destruct (Canvas.ticketToDeleteId st); [|done].
    destruct (deleteDoc _ r w) as [[?|?] w']; done.
  - by destruct (Hev docs).
Qed.

(** X12.  Only snapshots change the list on display: after any run of
    events it is the sorted form of the last snapshot received, and the list
    of before if no snapshot arrived; no create, status change or delete
    touches it, fulfilled or not. *)
Theorem display_is_last_snapshot (evs : list Canvas.UIEvent) (st : Canvas.AppState)
    (w : World) :
  Canvas.tickets (Canvas.run evs (st, w)).1
  = match CanvasApp.last_snapshot evs with
    | Some docs => js_sort byCreatedAtDesc (map ticket_of_doc docs)
    | None => Canvas.tickets st
    end.
Proof.
  revert st w. induction evs as [|ev evs IH]; intros st w; [done|].
  change (Canvas.run (ev :: evs) (st, w))
    with (Canvas.run evs (if Canvas.offered st ev
                          then Canvas.step ev (st, w) else (st, w))).
  simpl CanvasApp.last_snapshot.
  destruct (Canvas.offered st ev) eqn:Hoff.
  - destruct (Canvas.step ev (st, w)) as [st' w'] eqn:Hstep. rewrite IH.
    destruct (CanvasApp.last_snapshot evs); [done|].
    assert (st' = (Canvas.step ev (st, w)).1) as -> by (by rewrite Hstep).
    destruct ev; try (apply step_keeps_tickets; intros ?; discriminate). done.
  - rewrite IH. destruct (CanvasApp.last_snapshot evs); [done|].
    destruct ev; try done.
Qed.

(** X13.  The two variants of the snapshot handler store the same list
    exactly when the snapshot already arrives newest first: on such a
    snapshot the client-side sort changes nothing, on any other the lists
    differ. *)
Theorem client_sort_is_identity_iff_ordered (docs : list (DocId * Doc.t))
    (st : Vercel.AppState) (nst : Netlify.AppState) :
  Vercel.tickets (Vercel.onSnapshot docs st)
  = Netlify.tickets (Netlify.onSnapshot docs nst)
  ↔ StronglySorted (λ a b, sortKey b ≤ sortKey a) (map ticket_of_doc docs).
Proof.
  simpl. split.
  - intros <-. apply (js_sort_sorted sortKey byCreatedAtDesc byCreatedAtDesc_key).
  - intros Hs. apply (stable_sorted_unique sortKey); [|exact Hs|].
    + apply (js_sort_sorted sortKey byCreatedAtDesc byCreatedAtDesc_key).
    + intros k. apply (js_sort_stable sortKey byCreatedAtDesc byCreatedAtDesc_key).
Qed.

(** ** Statistics, again *)

Lemma filter_length_perm {A} (f : A → bool) (l l' : list A) :
  l ≡ₚ l' → length (List.filter f l) = length (List.filter f l').
Proof.
  induction 1 as [|x l l' _ IH|x y l|l1 l2 l3 _ IH1 _ IH2]; simpl.
  - done.
  - destruct (f x); simpl; by rewrite IH.
  - destruct (f x), (f y); done.
  - by rewrite IH1.
Qed.

Lemma stats_perm Number_toString (l l' : list Ticket.t) :
  l ≡ₚ l' → stats Number_toString l = stats Number_toString l'.
Proof.
  intros Hp. unfold stats.
  rewrite (Permutation_length Hp).
  by rewrite !(filter_length_perm _ l l' Hp).
Qed.

(** X14.  The statistics do not depend on the order of the tickets: they
    are the same for the sorted list on display as for the raw snapshot,
    and the same in whatever order the provider delivers the documents. *)
Theorem stats_ignore_order (Number_toString : float → jsstring)
    (docs docs' : list (DocId * Doc.t)) (st st' : Vercel.AppState) :
  docs ≡ₚ docs' →
  stats Number_toString (Vercel.tickets (Vercel.onSnapshot docs st))
  = stats Number_toString (map ticket_of_doc docs) ∧
  stats Number_toString (Vercel.tickets (Vercel.onSnapshot docs' st'))
  = stats Number_toString (Vercel.tickets (Vercel.onSnapshot docs st)).
Proof.
  intros Hp. simpl. split.
  - apply stats_perm, sorted_tickets_perm.
  - apply stats_perm. rewrite !sorted_tickets_perm. by rewrite Hp.
Qed.

Lemma stats_ignore_order_witness :
  stats no_toString
    (Vercel.tickets (Vercel.onSnapshot [older_doc; pending_doc] refund_form))
  = stats no_toString (map ticket_of_doc [older_doc; pending_doc]) ∧
  stats no_toString
    (Vercel.tickets (Vercel.onSnapshot [pending_doc; older_doc] refund_form))
  = stats no_toString
      (Vercel.tickets (Vercel.onSnapshot [older_doc; pending_doc] refund_form)).
Proof.
  apply (stats_ignore_order no_toString [older_doc; pending_doc]
           [pending_doc; older_doc]).
  apply Permutation_swap.
Defined.

(** X15.  The data listener subscribes to the owner's tickets only in 'My
    Tickets'; in 'All Tickets' and in 'Stats' it subscribes to the whole
    collection, so the total of the statistics is then the number of all
    documents, whoever owns them, while in 'My Tickets' it is the number of
    the user's own. *)
Theorem stats_total_follows_the_view (Number_toString : float → jsstring)
    (st : Vercel.AppState) (u : User) (q : Query)
    (c : gmap (list N) Doc.t) (docs : list (DocId * Doc.t)) :
  Vercel.user st = Some u →
  VercelApp.dataListener st = Some q → snapshot_of q c docs →
  let s := stats Number_toString (Vercel.tickets (Vercel.onSnapshot docs st)) in
  (Vercel.view st ≠ MyTickets → total s = size c) ∧
  (Vercel.view st = MyTickets →
   total s = size (filter (λ kv, Doc.userId kv.2 = uid u) c)).
Proof.
  intros Hu Hq Hs. unfold VercelApp.dataListener in Hq. rewrite Hu in Hq.
  injection Hq as <-. simpl.
  rewrite (Permutation_length (sorted_tickets_perm docs)), length_map.
  rewrite (snapshot_length _ _ _ Hs). split.
  - intros Hv. destruct (Vercel.view st); try done; apply f_equal,
      query_whole_collection.
  - intros ->. simpl. unfold query_result. f_equal.
    apply map_filter_ext. intros k d _. simpl. apply bool_decide_eq_true.
Qed.

Lemma stats_total_follows_the_view_witness :
  total (stats no_toString
           (Vercel.tickets (Vercel.onSnapshot [older_doc] alice_stats_view)))
  = size (collection one_ticket_world).
Proof.
  refine (proj1 (stats_total_follows_the_view no_toString alice_stats_view alice
                   WholeCollection (collection one_ticket_world) [older_doc]
                   eq_refl eq_refl _) _).
  - unfold snapshot_of, one_ticket_world. simpl.
    rewrite query_whole_collection, map_to_list_singleton. reflexivity.
  - discriminate.
Defined.

Lemma tenths_sum_close (N o p r no np nr : Z) :
  0 < N → o + p + r = N →
  2 * Z.abs (no * N - 1000 * o) ≤ N →
  2 * Z.abs (np * N - 1000 * p) ≤ N →
  2 * Z.abs (nr * N - 1000 * r) ≤ N →
  999 ≤ no + np + nr ≤ 1001.
Proof.
  intros HN Hsum Ho Hp Hr.
  assert (2 * Z.abs ((no + np + nr - 1000) * N) ≤ 3 * N) as H by lia.
  set (S := no + np + nr - 1000) in *.
  assert (-1 ≤ S ≤ 1); [|lia].
  destruct (Z_le_gt_dec S 1) as [Hle|Hgt].
  - split; [|done]. destruct (Z_le_gt_dec (-1) S) as [|Hlt]; [done|].
    assert (S * N ≤ (-2) * N) by (apply Z.mul_le_mono_nonneg_r; lia). lia.
  - assert (2 * N ≤ S * N) by (apply Z.mul_le_mono_nonneg_r; lia). lia.
Qed.

(** X16.  When every ticket has one of the three statuses, the three
    percentages, each rounded on its own, add up to 99.9, 100.0 or 100.1
    and to nothing else (for a list of fewer than 2^32 tickets). *)
Theorem percentages_sum_within_a_tenth (Number_toString : float → jsstring)
    (tickets : list Ticket.t) :
  (0 < length tickets)%nat → Z.of_nat (length tickets) < 2 ^ 32 →
  Forall known_status tickets →
  let s := stats Number_toString tickets in
  ∃ so sp sr no np nr,
    openPercent s = JsString so ∧ inProgressPercent s = JsString sp ∧
    resolvedPercent s = JsString sr ∧
    decimal_tenths so = Some no ∧ decimal_tenths sp = Some np ∧
    decimal_tenths sr = Some nr ∧
    999 ≤ no + np + nr ≤ 1001.
Proof.
  intros Hpos Hlt Hknown. simpl.
  destruct (percent_nearest Number_toString
              (length (List.filter (has_status "Open") tickets)) (length tickets))
    as (so & no & Eo & _ & Do & _ & Bo); [apply filter_length_le|done|done|].
  destruct (percent_nearest Number_toString
              (length (List.filter (has_status "In Progress") tickets))
              (length tickets))
    as (sp & np & Ep & _ & Dp & _ & Bp); [apply filter_length_le|done|done|].
  destruct (percent_nearest Number_toString
              (length (List.filter (has_status "Resolved") tickets))
              (length tickets))
    as (sr & nr & Er & _ & Dr & _ & Br); [apply filter_length_le|done|done|].
  exists so, sp, sr, no, np, nr.
  assert (999 ≤ no + np + nr ≤ 1001) as Hsum.
  { rewrite !filter_has_status_count in *.
    apply (proj2 (count_status_sum tickets)) in Hknown.
    eapply (tenths_sum_close (Z.of_nat (length tickets)));
      [lia| |exact Bo|exact Bp|exact Br]. lia. }
  repeat split; try done; lia.
Qed.

Lemma percentages_sum_within_a_tenth_witness :
  let s := stats no_toString three_tickets in
  ∃ so sp sr no np nr,
    openPercent s = JsString so ∧ inProgressPercent s = JsString sp ∧
    resolvedPercent s = JsString sr ∧
    decimal_tenths so = Some no ∧ decimal_tenths sp = Some np ∧
    decimal_tenths sr = Some nr ∧
    999 ≤ no + np + nr ≤ 1001.
Proof.
  apply (percentages_sum_within_a_tenth no_toString three_tickets).
  - simpl. lia.
  - simpl. lia.
  - repeat constructor; unfold known_status; simpl; tauto.
Defined.

Lemma percent_extremes Number_toString (total : nat) :
  (0 < total)%nat → Z.of_nat total < 2 ^ 32 →
  percent Number_toString total total = JsString (js "100.0") ∧
  percent Number_toString 0 total = JsString (js "0.0").
Proof.
  intros Hpos Hlt. split.
  - destruct (percent_nearest Number_toString total total)
      as (s & n & -> & -> & _ & _ & Hn); [done|done|done|].
    assert (n = 1000) as -> by nia. reflexivity.
  - destruct (percent_nearest Number_toString 0 total)
      as (s & n & -> & -> & _ & _ & Hn); [lia|done|done|].
    assert (n = 0) as -> by nia. reflexivity.
Qed.

(** X17.  Exact at the ends: a status that every ticket has is shown as
    "100.0" and a status that no ticket has as "0.0" (for a non-empty list
    of fewer than 2^32 tickets). *)
Theorem percentages_exact_at_the_ends (Number_toString : float → jsstring)
    (tickets : list Ticket.t) :
  (0 < length tickets)%nat → Z.of_nat (length tickets) < 2 ^ 32 →
  let s := stats Number_toString tickets in
  (open s = total s → openPercent s = JsString (js "100.0")) ∧
  (open s = 0%nat → openPercent s = JsString (js "0.0")) ∧
  (inProgress s = total s → inProgressPercent s = JsString (js "100.0")) ∧
  (inProgress s = 0%nat → inProgressPercent s = JsString (js "0.0")) ∧
  (resolved s = total s → resolvedPercent s = JsString (js "100.0")) ∧
  (resolved s = 0%nat → resolvedPercent s = JsString (js "0.0")).
Proof.
  intros Hpos Hlt. simpl.
  destruct (percent_extremes Number_toString (length tickets) Hpos Hlt) as [H1 H0].
  repeat split; intros ->; assumption.
Qed.

Lemma percentages_exact_at_the_ends_witness :
  openPercent (stats no_toString [ticket_with_status "Open"]) = JsString (js "100.0") ∧
  resolvedPercent (stats no_toString [ticket_with_status "Open"])
  = JsString (js "0.0").
Proof.
  pose proof (percentages_exact_at_the_ends no_toString [ticket_with_status "Open"]
                ltac:(simpl; lia) ltac:(simpl; lia)) as (H1 & _ & _ & _ & _ & H0).
  split; [apply H1 | apply H0]; reflexivity.
Defined.

(** ** Badges *)

Lemma colorStyle_default_iff (t : Ticket.t) :
  colorStyle (Ticket.status t) = defaultColorStyle ↔ ¬ known_status t.
Proof.
  unfold colorStyle, known_status.
  repeat case_decide; split; try tauto; try discriminate.
Qed.

Lemma filter_length_cons {A} (f : A → bool) (x : A) (l : list A) :
  length (List.filter f (x :: l))
  = (Nat.b2n (f x) + length (List.filter f l))%nat.
Proof. simpl. by destruct (f x). Qed.

Lemma badge_partition (t : Ticket.t) :
  (Nat.b2n (gray_badge t) + Nat.b2n (has_status "Open" t)
   + Nat.b2n (has_status "In Progress" t) + Nat.b2n (has_status "Resolved" t)
   = 1)%nat.
Proof.
  unfold gray_badge, has_status.
  destruct (decide (Ticket.status t = js "Open")) as [E|E1];
    [rewrite E; vm_compute; reflexivity|].
  destruct (decide (Ticket.status t = js "In Progress")) as [E|E2];
    [rewrite E; vm_compute; reflexivity|].
  destruct (decide (Ticket.status t = js "Resolved")) as [E|E3];
    [rewrite E; vm_compute; reflexivity|].
  unfold colorStyle. rewrite !decide_False by done.
  rewrite bool_decide_eq_true_2 by done.
  rewrite !bool_decide_eq_false_2 by done. reflexivity.
Qed.

(** X18.  The badge falls back to the gray style exactly for the tickets
    whose status is none of 'Open', 'In Progress', 'Resolved', the three
    known statuses have three different styles, and the gray badges are
    exactly the tickets that the statistics count in [total] but in none of
    the three status counts. *)
Theorem gray_badges_are_the_uncounted (Number_toString : float → jsstring)
    (tickets : list Ticket.t) :
  let s := stats Number_toString tickets in
  (∀ t, colorStyle (Ticket.status t) = defaultColorStyle ↔ ¬ known_status t) ∧
  (∀ a b, known_status a → known_status b →
     colorStyle (Ticket.status a) = colorStyle (Ticket.status b) →
     Ticket.status a = Ticket.status b) ∧
  (∀ st, children (StatusBadge st) = st) ∧
  (length (List.filter gray_badge tickets) + open s + inProgress s + resolved s
   = total s)%nat.
Proof.
  simpl. split; [apply colorStyle_default_iff|]. split.
  { intros a b Ha Hb. unfold colorStyle, known_status in *.
    repeat case_decide; try discriminate; try tauto; congruence. }
  split; [done|].
  induction tickets as [|t l IH]; [done|].
  rewrite !filter_length_cons. pose proof (badge_partition t). simpl length. lia.
Qed.

(** ** What a run adds to the console and to the requests *)

Lemma step_console (ev : Canvas.UIEvent) (st : Canvas.AppState) (w : World) :
  ∃ logs, console (Canvas.step ev (st, w)).2 = console w ++ logs ∧
          (length logs ≤ if CanvasApp.succeeds ev then 0 else 1)%nat.
Proof.
  destruct ev as [e r|s|s|i n r|i|r| |docs|err]; simpl;
    try (exists []; rewrite app_nil_r; done).
  - unfold Canvas.createTicket.
    destruct (_ || _); [exists []; rewrite app_nil_r; split; [done|destruct r; simpl; lia]|].
    destruct (Canvas.user st); [|exists []; rewrite app_nil_r; split; [done|destruct r; simpl; lia]].
    destruct r as [[newId now]|err]; simpl.
    + exists []. by rewrite app_nil_r.
    + eexists [_]. split; [reflexivity|simpl; lia].
  - unfold Canvas.updateTicketStatus.
    destruct (negb _); [exists []; rewrite app_nil_r; split; [done|destruct r; simpl; lia]|].
    destruct r as [[]|err]; simpl.
    + exists []. by rewrite app_nil_r.
    + eexists [_]. split; [reflexivity|simpl; lia].
  - unfold Canvas.deleteTicket.
    destruct (_ || _); [exists []; rewrite app_nil_r; split; [done|destruct r; simpl; lia]|].
    destruct (Canvas.ticketToDeleteId st);
      [|exists []; rewrite app_nil_r; split; [done|destruct r; simpl; lia]].
    destruct r as [[]|err]; simpl.
    + exists []. by rewrite app_nil_r.
    + eexists [_]. split; [reflexivity|simpl; lia].
  - eexists [_]. split; [reflexivity|simpl; lia].
Qed.

Lemma step_requests (ev : Canvas.UIEvent) (st : Canvas.AppState) (w : World) :
  ∃ reqs, requests (Canvas.step ev (st, w)).2 = requests w ++ reqs ∧
          (length reqs ≤ if CanvasApp.calls_provider ev then 1 else 0)%nat.
Proof.
  destruct ev as [e r|s|s|i n r|i|r| |docs|err]; simpl;
    try (exists []; rewrite app_nil_r; done).
  - unfold Canvas.createTicket.
    destruct (_ || _); [exists []; rewrite app_nil_r; simpl; split; [done|lia]|].
    destruct (Canvas.user st); [|exists []; rewrite app_nil_r; simpl; split; [done|lia]].
    destruct r as [[newId now]|err]; simpl;
      (eexists [_]; split; [reflexivity|simpl; lia]).
  - unfold Canvas.updateTicketStatus.
    destruct (negb _); [exists []; rewrite app_nil_r; simpl; split; [done|lia]|].
    destruct r as [[]|err]; simpl;
      (eexists [_]; split; [reflexivity|simpl; lia]).
  - unfold Canvas.deleteTicket.
    destruct (_ || _); [exists []; rewrite app_nil_r; simpl; split; [done|lia]|].
    destruct (Canvas.ticketToDeleteId st);
      [|exists []; rewrite app_nil_r; simpl; split; [done|lia]].
    destruct r as [[]|err]; simpl;
      (eexists [_]; split; [reflexivity|simpl; lia]).
Qed.

(** X19.  Over any sequence of user actions and provider pushes, the
    console only grows, and by at most one entry for each event that is a
    rejected provider call or a subscription error; when there is no such
    event, nothing is logged at all. *)
Theorem console_grows_by_failures (evs : list Canvas.UIEvent)
    (st : Canvas.AppState) (w : World) :
  (∃ logs,
     console (Canvas.run evs (st, w)).2 = console w ++ logs ∧
     (length logs
      ≤ length (List.filter (λ ev, negb (CanvasApp.succeeds ev)) evs))%nat) ∧
  (forallb CanvasApp.succeeds evs = true →
   console (Canvas.run evs (st, w)).2 = console w).
Proof.
  assert (∀ evs st w, ∃ logs,
     console (Canvas.run evs (st, w)).2 = console w ++ logs ∧
     (length logs
      ≤ length (List.filter (λ ev, negb (CanvasApp.succeeds ev)) evs))%nat) as G.
  { clear. induction evs as [|ev evs IH]; intros st w.
    { exists []. by rewrite app_nil_r. }
    rewrite run_cons, filter_length_cons.
    destruct (Canvas.offered st ev).
    - destruct (step_console ev st w) as (l1 & E1 & L1).
      destruct (Canvas.step ev (st, w)) as [st1 w1]. simpl in E1.
      destruct (IH st1 w1) as (l2 & E2 & L2).
      exists (l1 ++ l2). rewrite E2, E1, app_assoc, length_app.
      split; [done|]. destruct (CanvasApp.succeeds ev); simpl in *; lia.
    - destruct (IH st w) as (l2 & E2 & L2). exists l2. split; [done|lia]. }
  split; [apply G|].
  intros Hok. destruct (G evs st w) as (logs & E & L).
  assert (List.filter (λ ev, negb (CanvasApp.succeeds ev)) evs = []) as Hnil.
  { clear -Hok. induction evs as [|ev evs IH]; [done|].
    simpl in *. apply andb_true_iff in Hok as [-> Hok]. simpl. auto. }
  rewrite Hnil in L. destruct logs; simpl in L; [|lia].
  by rewrite E, app_nil_r.
Qed.

(** X20.  Over any sequence of events the recorded requests only grow, and
    by at most one for each submit, status change or confirm: typing,
    opening or cancelling the dialog and snapshots send nothing. *)
Theorem requests_grow_by_calls (evs : list Canvas.UIEvent)
    (st : Canvas.AppState) (w : World) :
  ∃ reqs,
    requests (Canvas.run evs (st, w)).2 = requests w ++ reqs ∧
    (length reqs ≤ length (List.filter CanvasApp.calls_provider evs))%nat.
Proof.
  revert st w. induction evs as [|ev evs IH]; intros st w.
  { exists []. by rewrite app_nil_r. }
  rewrite run_cons, filter_length_cons.
  destruct (Canvas.offered st ev).
  - destruct (step_requests ev st w) as (l1 & E1 & L1).
    destruct (Canvas.step ev (st, w)) as [st1 w1]. simpl in E1.
    destruct (IH st1 w1) as (l2 & E2 & L2).
    exists (l1 ++ l2). rewrite E2, E1, app_assoc, length_app.
    split; [done|]. destruct (CanvasApp.calls_provider ev); simpl in *; lia.
  - destruct (IH st w) as (l2 & E2 & L2). exists l2. split; [done|lia].
Qed.

(** ** Without the services *)

Lemma step_without_db (ev : Canvas.UIEvent) (st : Canvas.AppState) (w : World) :
  Canvas.db st = false →
  Canvas.db (Canvas.step ev (st, w)).1 = false ∧
  Canvas.loading (Canvas.step ev (st, w)).1 = Canvas.loading st ∧
  requests (Canvas.step ev (st, w)).2 = requests w ∧
  collection (Canvas.step ev (st, w)).2 = collection w.
Proof.
  intros Hdb. destruct ev as [e r|s|s|i n r|i|r| |docs|err]; simpl; try done.
  - unfold Canvas.createTicket. rewrite Hdb, !orb_true_r. done.
  - unfold Canvas.updateTicketStatus. rewrite Hdb. done.
  - unfold Canvas.deleteTicket. rewrite Hdb, !orb_true_r. done.
Qed.

Lemma run_without_db (evs : list Canvas.UIEvent) (st : Canvas.AppState) (w : World) :
  Canvas.db st = false →
  Canvas.db (Canvas.run evs (st, w)).1 = false ∧
  Canvas.loading (Canvas.run evs (st, w)).1 = Canvas.loading st ∧
  requests (Canvas.run evs (st, w)).2 = requests w ∧
  collection (Canvas.run evs (st, w)).2 = collection w.
Proof.
  revert st w. induction evs as [|ev evs IH]; intros st w Hdb; [done|].
  rewrite run_cons. destruct (Canvas.offered st ev); [|by apply IH].
  destruct (step_without_db ev st w Hdb) as (D & L & R & C).
  destruct (Canvas.step ev (st, w)) as [st1 w1]. simpl in *.
  destruct (IH st1 w1 D) as (D' & L' & R' & C').
  rewrite D', L', R', C'. done.
Qed.

(** X21.  While the database handle is not set, no sequence of user
    actions sends a request or changes the collection, and the handle stays
    unset: every mutating handler returns at its guard. *)
Theorem without_services_nothing_is_sent (evs : list Canvas.UIEvent)
    (st : Canvas.AppState) (w : World) :
  Canvas.db st = false →
  Canvas.db (Canvas.run evs (st, w)).1 = false ∧
  requests (Canvas.run evs (st, w)).2 = requests w ∧
  collection (Canvas.run evs (st, w)).2 = collection w.
Proof.
  intros Hdb. destruct (run_without_db evs st w Hdb) as (D & _ & R & C). done.
Qed.

Lemma without_services_nothing_is_sent_witness :
  let st := CanvasApp.setUser (Some alice) CanvasApp.initial in
  let evs := [Canvas.TypeTitle (js "Refund"); Canvas.TypeDescription (js "Twice");
              Canvas.Submit submit_event (Fulfilled (js "t9", {| toMillis := 9 |}));
              Canvas.ChangeStatus (js "t1") (js "Resolved") (Fulfilled tt)] in
  Canvas.db st = false ∧
  Canvas.db (Canvas.run evs (st, one_ticket_world)).1 = false ∧
  requests (Canvas.run evs (st, one_ticket_world)).2 = requests one_ticket_world ∧
  collection (Canvas.run evs (st, one_ticket_world)).2 = collection one_ticket_world.
Proof.
  split; [reflexivity|].
  apply (without_services_nothing_is_sent _
           (CanvasApp.setUser (Some alice) CanvasApp.initial) one_ticket_world).
  reflexivity.
Defined.

(** ** Start-up and the session *)

(** X22.  When the auth callback delivers no user, src/src/App.jsx starts
    one anonymous sign-in and leaves the loading screen all the same: the
    main page is shown with no subscription, a disabled submit button and no
    delete button, and a submit sends nothing whatever the form holds. *)
Theorem signed_out_page_is_inert (r : Settled unit) (st : Vercel.AppState)
    (w : World) (e : FormEvent) (r' : Settled (DocId * Timestamp)) :
  let s1 := VercelApp.onAuthStateChanged None r st w in
  s1.2 = [signInAnonymously] ∧
  VercelApp.App true true s1.1.1 = MainPage ∧
  VercelApp.dataListener s1.1.1 = None ∧
  VercelApp.submitDisabled s1.1.1 = true ∧
  Forall (λ c, deleteButton c = false) (Vercel.renderTicketView s1.1.1) ∧
  Vercel.createTicket e r' s1.1.1 s1.1.2 = (preventDefault e, s1.1.1, s1.1.2) ∧
  requests s1.1.2 = requests w ∧ collection s1.1.2 = collection w.
Proof.
  destruct r as [[]|err]; simpl;
    (repeat split; try done;
     [ unfold Vercel.renderTicketView; simpl; apply Forall_map, Forall_true; done
     | unfold Vercel.createTicket; simpl; by rewrite !orb_true_r ]).
Qed.

(** X23.  When the injected configuration text does not parse, the module
    of the modal variant throws before [App] exists and nothing is rendered.
    Otherwise the component mounts, and it shows the initialization error
    exactly when the configuration is absent or falsy or the services could
    not be created; the message then stays whatever the user does, no
    subscription is opened and nothing is sent to the document store. *)
Theorem failed_initialization_blocks (injected : option CanvasApp.Parsed)
    (o : CanvasApp.InitOutcome) (w : World) :
  (CanvasApp.mount injected o w = None
   ↔ ∃ e, injected = Some (CanvasApp.ParseThrows e)) ∧
  (∀ s1, CanvasApp.mount injected o w = Some s1 →
     (CanvasApp.App s1.1 = InitializationError
      ↔ injected = None ∨ injected = Some (CanvasApp.ParsedValue false)
        ∨ ∃ e, o = CanvasApp.ThrowsBeforeServices e) ∧
     (CanvasApp.App s1.1 = InitializationError →
      ∀ evs, let s2 := Canvas.run evs s1 in
        CanvasApp.App s2.1 = InitializationError ∧
        CanvasApp.dataListener s2.1 = None ∧
        requests s2.2 = requests w ∧ collection s2.2 = collection w)).
Proof.
  assert (∀ st w0 evs, Canvas.db st = false → Canvas.loading st = false →
            let s2 := Canvas.run evs (st, w0) in
            CanvasApp.App s2.1 = InitializationError ∧
            CanvasApp.dataListener s2.1 = None ∧
            requests s2.2 = requests w0 ∧ collection s2.2 = collection w0) as G.
  { intros st w0 evs Hdb Hl.
    destruct (run_without_db evs st w0 Hdb) as (D & L & R & C).
    simpl. unfold CanvasApp.App, CanvasApp.dataListener.
    rewrite L, Hl, D. simpl. split; [done|]. split; [|done].
    by destruct (Canvas.user _). }
  split.
  { unfold CanvasApp.mount.
    destruct injected as [[e|b]|]; simpl; split; try discriminate; eauto.
    - intros [e [=]].
    - intros [e [=]]. }
  intros s1 Hm. unfold CanvasApp.mount in Hm.
  destruct injected as [[e|[|]]|]; simpl in Hm; [discriminate| | |];
    injection Hm as <-.
  - destruct o as [|e|e]; simpl; split.
    + split; [discriminate|]. intros [?|[?|[e ?]]]; discriminate.
    + discriminate.
    + split; [eauto|done].
    + intros _ evs. by apply G.
    + split; [discriminate|]. intros [?|[?|[e' ?]]]; discriminate.
    + discriminate.
  - simpl. split; [split; [auto|done]|]. intros _ evs. by apply G.
  - simpl. split; [split; [auto|done]|]. intros _ evs. by apply G.
Qed.

(** X24.  After a successful initialization the modal variant stays on the
    loading screen until the first auth callback, and leaves it at that
    callback whether or not a user is delivered.  With a user the
    owner-scoped subscription is opened and no sign-in is started; with none
    exactly one sign-in is started, with the injected token when it is
    non-empty and anonymously otherwise, and no subscription is opened.  The
    document store is not touched. *)
Theorem loading_ends_at_first_auth_callback (initialAuthToken : option jsstring)
    (currentUser : option User) (r : Settled unit) (w : World) :
  let s1 := CanvasApp.initialize true CanvasApp.Initialized CanvasApp.initial w in
  let s2 := CanvasApp.onAuthStateChanged initialAuthToken currentUser r s1.1 s1.2 in
  CanvasApp.App s1.1 = Connecting ∧
  CanvasApp.App s2.1.1 = MainPage ∧
  CanvasApp.dataListener s2.1.1
  = match currentUser with
    | Some u => Some (WhereUserId (uid u))
    | None => None
    end ∧
  s2.2 = match currentUser, initialAuthToken with
         | Some _, _ => []
         | None, Some (c :: t) => [signInWithCustomToken (c :: t)]
         | None, _ => [signInAnonymously]
         end ∧
  requests s2.1.2 = requests w ∧ collection s2.1.2 = collection w.
Proof.
  destruct currentUser as [u|]; simpl; [done|].
  destruct initialAuthToken as [[|c t]|], r as [[]|err]; simpl; done.
Qed.
